(** * TinyCPU: a shallow embedding of [cpuarch.py] and its verified properties

    The emulator is a Python class whose methods mutate the fields of one
    object and may raise.  It is embedded as a state-and-exception monad over
    a record of the object's fields.  Python integers are unbounded, so every
    field is a [Z] and every mask ([& 0xFF], [& 0xFFFF]) is written out with
    [Z.land], exactly where the source has it.  The memory is a Python list
    of 65536 cells, embedded as a [list Z] with Python's indexing rules
    (negative indices count from the end, anything else out of range raises
    [IndexError]). *)

From Stdlib Require Import ZArith NArith Lia Bool Ascii String.
From stdpp Require Import base list strings gmap.

Local Open Scope string_scope.
Local Open Scope Z_scope.

(** ** Exceptions and the state monad *)

Inductive exn : Type :=
| KeyError (key : string)
| IndexError
| RuntimeError (msg : string).

Inductive outcome (A : Type) : Type :=
| Ret (a : A)
| Raise (e : exn).
Arguments Ret {A} a.
Arguments Raise {A} e.

(** The fields of a [TinyCPU] object, in the order [__init__] assigns them.
    The zero flag is called [Z] in the source. *)
Record cpu : Type := mkCPU {
  mem : list Z;
  A : Z;
  B : Z;
  PC : Z;
  ZF : bool;
  running : bool;
  output : list Z
}.

Definition set_mem (m : list Z) (s : cpu) : cpu :=
  mkCPU m (A s) (B s) (PC s) (ZF s) (running s) (output s).
Definition set_A (a : Z) (s : cpu) : cpu :=
  mkCPU (mem s) a (B s) (PC s) (ZF s) (running s) (output s).
Definition set_B (b : Z) (s : cpu) : cpu :=
  mkCPU (mem s) (A s) b (PC s) (ZF s) (running s) (output s).
Definition set_PC (pc : Z) (s : cpu) : cpu :=
  mkCPU (mem s) (A s) (B s) pc (ZF s) (running s) (output s).
Definition set_ZF (z : bool) (s : cpu) : cpu :=
  mkCPU (mem s) (A s) (B s) (PC s) z (running s) (output s).
Definition set_running (r : bool) (s : cpu) : cpu :=
  mkCPU (mem s) (A s) (B s) (PC s) (ZF s) r (output s).
Definition set_output (o : list Z) (s : cpu) : cpu :=
  mkCPU (mem s) (A s) (B s) (PC s) (ZF s) (running s) o.

(** A method body: it reads and mutates the object and either returns a
    value or raises; the mutations made before a raise stay. *)
Definition M (T : Type) : Type := cpu -> outcome T * cpu.

Definition ret {T} (x : T) : M T := fun s => (Ret x, s).
Definition raise {T} (e : exn) : M T := fun s => (Raise e, s).
Definition bind {T U} (m : M T) (k : T -> M U) : M U :=
  fun s => match m s with
           | (Ret x, s') => k x s'
           | (Raise e, s') => (Raise e, s')
           end.
Definition gets {T} (f : cpu -> T) : M T := fun s => (Ret (f s), s).
Definition modify (f : cpu -> cpu) : M unit := fun s => (Ret tt, f s).

Declare Scope cpu_scope.
Delimit Scope cpu_scope with cpu.
Notation "'let!' x ':=' m 'in' k" := (bind m (fun x => k))
  (at level 10, x name, m at level 100, k at level 200) : cpu_scope.
Notation "'do!' m 'in' k" := (bind m (fun _ => k))
  (at level 10, m at level 100, k at level 200) : cpu_scope.
Local Open Scope cpu_scope.

(** ** Memory: a Python list of [MEM_SIZE] cells *)

Definition MEM_SIZE : Z := 65536.

(** Python's list subscript: [0 <= i < len] is position [i],
    [-len <= i < 0] is position [i + len], the rest raises [IndexError]. *)
Definition list_index (l : list Z) (i : Z) : option nat :=
  let n := Z.of_nat (length l) in
  if (0 <=? i) && (i <? n) then Some (Z.to_nat i)
  else if (i <? 0) && (- n <=? i) then Some (Z.to_nat (i + n))
  else None.

(** [self.mem[i]] *)
Definition mem_get (i : Z) : M Z :=
  fun s => match list_index (mem s) i with
           | Some k => match mem s !! k with
                       | Some v => (Ret v, s)
                       | None => (Raise IndexError, s)
                       end
           | None => (Raise IndexError, s)
           end.

(** [self.mem[i] = v] *)
Definition mem_put (i : Z) (v : Z) : M unit :=
  fun s => match list_index (mem s) i with
           | Some k => (Ret tt, set_mem (<[k := v]> (mem s)) s)
           | None => (Raise IndexError, s)
           end.

(** [TinyCPU.__init__] *)
Definition init : cpu :=
  mkCPU (replicate (Z.to_nat MEM_SIZE) 0) 0 0 0 false true [].

(** ** The opcode table *)

(** [OPCODES], a dict literal; the association list keeps its order. *)
Definition OPCODES : list (Z * string) :=
  [ (0x01, "LDA"); (0x02, "LDB"); (0x03, "LDA_MEM"); (0x04, "STA");
    (0x05, "ADD"); (0x06, "SUB"); (0x07, "JMP"); (0x08, "JZ");
    (0x09, "OUT"); (0xFF, "HLT") ].

(** [OPCODES_INV = {v:k for k,v in OPCODES.items()}]: the items are inserted
    in order, a later one replacing an earlier one with the same key. *)
Definition OPCODES_INV : gmap string Z :=
  foldl (fun m kv => <[snd kv := fst kv]> m) ∅ OPCODES.

(** [OPCODES_INV[key]] *)
Definition opcodes_inv (key : string) : M Z :=
  match OPCODES_INV !! key with
  | Some c => ret c
  | None => raise (KeyError key)
  end.

(** ** [str.upper] on ASCII strings

    A [string] stands for a Python [str] of ASCII characters, one [ascii]
    per character ([is_ascii] below is [str.isascii]).  On such a string
    [str.upper] maps the letters a-z to A-Z and keeps every other character,
    and this is what [upper] does.  [str.upper] is aware of Unicode: it
    also maps some characters outside ASCII to ASCII letters (U+017F to S),
    which a byte-wise function cannot follow.  So [upper] is the source's
    [.upper()] on ASCII strings only; the ten names of the table are ASCII,
    a mnemonic that [upper] maps to one of them is ASCII itself (lemma
    [known_is_ascii]), and a statement about a mnemonic that the loader
    rejects assumes [is_ascii] of it. *)
Fixpoint is_ascii (s : string) : bool :=
  match s with
  | EmptyString => true
  | String c t => (N_of_ascii c <? 128)%N && is_ascii t
  end.

Definition upper_ascii (c : ascii) : ascii :=
  let n := N_of_ascii c in
  if ((97 <=? n) && (n <=? 122))%N then ascii_of_N (n - 32) else c.

Fixpoint upper (s : string) : string :=
  match s with
  | EmptyString => EmptyString
  | String c t => String (upper_ascii c) (upper t)
  end.

(** ** The loader *)

(** One element of [program]: a tuple whose first component is the mnemonic
    and whose second component, when the tuple has one, is the operand. *)
Definition instr : Type := string * option Z.

(** The body of the [for] loop of [load_program], threading [addr]. *)
Fixpoint load_loop (program : list instr) (addr : Z) : M Z :=
  match program with
  | [] => ret addr
  | ins :: rest =>
      let op := upper (fst ins) in
      let arg := match snd ins with Some a => a | None => 0 end in
      let! opcode := opcodes_inv op in
      do! mem_put addr opcode in
      let addr := addr + 1 in
      do! mem_put addr (Z.land arg 0xFF) in
      do! mem_put (addr + 1) (Z.land (Z.shiftr arg 8) 0xFF) in
      let addr := addr + 2 in
      load_loop rest addr
  end.

(** [TinyCPU.load_program] *)
Definition load_program (program : list instr) : M unit :=
  let! addr := load_loop program 0 in
  let! hlt := opcodes_inv "HLT" in
  mem_put addr hlt.

(** ** The engine *)

(** [TinyCPU.fetch_operand] *)
Definition fetch_operand : M Z :=
  let! pc := gets PC in
  let! lo := mem_get pc in
  let! hi := mem_get (Z.land (pc + 1) 0xFFFF) in
  let val := Z.lor lo (Z.shiftl hi 8) in
  let! pc := gets PC in
  do! modify (set_PC (Z.land (pc + 2) 0xFFFF)) in
  ret val.

(** *** The text of the decode failure

    [f"Unknown opcode {opcode} at PC {self.PC-1:04X}"]: the opcode in
    decimal, the address in upper-case hexadecimal, zero-padded after the
    sign to a width of four. *)

Definition digit_char (d : N) : ascii :=
  if (d <? 10)%N then ascii_of_N (48 + d) else ascii_of_N (55 + d).

Fixpoint digits (base : N) (fuel : nat) (n : N) (acc : string) : string :=
  match fuel with
  | O => acc
  | S fuel' =>
      let acc' := String (digit_char (n mod base)) acc in
      if (n / base =? 0)%N then acc' else digits base fuel' (n / base) acc'
  end.

(** A number below [2 ^ (log2 n + 1)] has at most [log2 n + 1] digits. *)
Definition N_digits (base : N) (n : N) : string :=
  digits base (S (N.to_nat (N.log2 n))) n "".

Fixpoint zeros (k : nat) : string :=
  match k with
  | O => ""
  | S k' => String "0" (zeros k')
  end.

(** [str(z)] *)
Definition str_int (z : Z) : string :=
  if z <? 0 then String "-" (N_digits 10 (Z.abs_N z))
  else N_digits 10 (Z.abs_N z).

(** [format(z, "04X")] *)
Definition format_04X (z : Z) : string :=
  let d := N_digits 16 (Z.abs_N z) in
  let sign := if z <? 0 then "-" else "" in
  String.append sign
    (String.append (zeros (4 - String.length sign - String.length d)) d).

Definition unknown_opcode_msg (opcode : Z) (pc : Z) : string :=
  String.append "Unknown opcode "
    (String.append (str_int opcode)
       (String.append " at PC " (format_04X pc))).

Definition max_steps_msg : string :=
  "Max steps reached (possible infinite loop)".

(** [TinyCPU.step] *)
Definition step : M unit :=
  let! pc := gets PC in
  let! opcode := mem_get pc in
  let! pc := gets PC in
  do! modify (set_PC (Z.land (pc + 1) 0xFFFF)) in
  let! c := opcodes_inv "LDA" in
  if opcode =? c then
    let! v := fetch_operand in
    let imm := Z.land v 0xFF in
    do! modify (set_A imm) in
    let! a := gets A in
    modify (set_ZF (a =? 0))
  else
  let! c := opcodes_inv "LDB" in
  if opcode =? c then
    let! v := fetch_operand in
    let imm := Z.land v 0xFF in
    do! modify (set_B imm) in
    let! b := gets B in
    modify (set_ZF (b =? 0))
  else
  let! c := opcodes_inv "LDA_MEM" in
  if opcode =? c then
    let! addr := fetch_operand in
    let! v := mem_get addr in
    do! modify (set_A (Z.land v 0xFF)) in
    let! a := gets A in
    modify (set_ZF (a =? 0))
  else
  let! c := opcodes_inv "STA" in
  if opcode =? c then
    let! addr := fetch_operand in
    let! a := gets A in
    mem_put addr (Z.land a 0xFF)
  else
  let! c := opcodes_inv "ADD" in
  if opcode =? c then
    let! a := gets A in
    let! b := gets B in
    let s := Z.land (a + b) 0xFF in
    do! modify (set_A s) in
    let! a := gets A in
    modify (set_ZF (a =? 0))
  else
  let! c := opcodes_inv "SUB" in
  if opcode =? c then
    let! a := gets A in
    let! b := gets B in
    let s := Z.land (a - b) 0xFF in
    do! modify (set_A s) in
    let! a := gets A in
    modify (set_ZF (a =? 0))
  else
  let! c := opcodes_inv "JMP" in
  if opcode =? c then
    let! addr := fetch_operand in
    modify (set_PC (Z.land addr 0xFFFF))
  else
  let! c := opcodes_inv "JZ" in
  if opcode =? c then
    let! addr := fetch_operand in
    let! z := gets ZF in
    if z then modify (set_PC (Z.land addr 0xFFFF)) else ret tt
  else
  let! c := opcodes_inv "OUT" in
  if opcode =? c then
    let! a := gets A in
    let! o := gets output in
    modify (set_output (o ++ [a]))
  else
  let! c := opcodes_inv "HLT" in
  if opcode =? c then
    modify (set_running false)
  else
    let! pc := gets PC in
    raise (RuntimeError (unknown_opcode_msg opcode (pc - 1))).

(** The [while] loop of [run].  It makes at most [max_steps] iterations;
    [fuel] bounds them, and [None] is returned only if the fuel ends while
    the loop condition still holds. *)
Fixpoint run_loop (fuel : nat) (max_steps steps : Z) : M (option Z) :=
  let! r := gets running in
  if r && (steps <? max_steps) then
    match fuel with
    | O => ret None
    | S fuel' =>
        do! step in
        let steps := steps + 1 in
        run_loop fuel' max_steps steps
    end
  else ret (Some steps).

(** [TinyCPU.run]; [Some tt] is a normal return. *)
Definition run (max_steps : Z) : M (option unit) :=
  let! r := run_loop (Z.to_nat max_steps) max_steps 0 in
  match r with
  | None => ret None
  | Some steps =>
      if steps >=? max_steps then raise (RuntimeError max_steps_msg)
      else ret (Some tt)
  end.

(** The default of the [max_steps] parameter. *)
Definition DEFAULT_MAX_STEPS : Z := 100000.

(** The example program of the source file. *)
Definition prog : list instr :=
  [ ("LDA", Some 7); ("LDB", Some 5); ("ADD", Some 0); ("OUT", Some 0);
    ("HLT", Some 0) ].

(** * Definitions used in the statements *)

(** The ten rows of the instruction set table, as the specification lists
    them; [spec_opcode] and [spec_name] are its two columns. *)
Inductive mnemonic : Type :=
| LDA | LDB | LDA_MEM | STA | ADD | SUB | JMP | JZ | OUT | HLT.

Definition spec_name (m : mnemonic) : string :=
  match m with
  | LDA => "LDA" | LDB => "LDB" | LDA_MEM => "LDA_MEM" | STA => "STA"
  | ADD => "ADD" | SUB => "SUB" | JMP => "JMP" | JZ => "JZ"
  | OUT => "OUT" | HLT => "HLT"
  end.

Definition spec_opcode (m : mnemonic) : Z :=
  match m with
  | LDA => 0x01 | LDB => 0x02 | LDA_MEM => 0x03 | STA => 0x04
  | ADD => 0x05 | SUB => 0x06 | JMP => 0x07 | JZ => 0x08
  | OUT => 0x09 | HLT => 0xFF
  end.

(** The instructions that the specification says take an operand. *)
Definition spec_has_operand (m : mnemonic) : bool :=
  match m with
  | LDA | LDB | LDA_MEM | STA | JMP | JZ => true
  | ADD | SUB | OUT | HLT => false
  end.

(** ** Well-formed machine states

    The ranges the data model gives to the fields: 65536 memory cells, each
    a byte, an 8-bit [A] and [B] and a 16-bit [PC]. *)
Record wf (s : cpu) : Prop := mkWf {
  wf_len : Z.of_nat (length (mem s)) = MEM_SIZE;
  wf_bytes : Forall (fun v => 0 <= v < 256) (mem s);
  wf_A : 0 <= A s < 256;
  wf_B : 0 <= B s < 256;
  wf_PC : 0 <= PC s < 65536
}.

(** The cell at address [i]. *)
Definition cell (s : cpu) (i : Z) : Z := mem s !!! Z.to_nat i.

(** The operand read at address [pc]: two bytes, low one first. *)
Definition operand_at (s : cpu) (pc : Z) : Z :=
  cell s pc + 256 * cell s ((pc + 1) mod 65536).

(** What each instruction does once its operand, if it has one, is read:
    the instruction list of the specification, one case per row. *)
Definition spec_act (m : mnemonic) (operand : Z) (s : cpu) : cpu :=
  match m with
  | LDA => let v := operand mod 256 in set_ZF (v =? 0) (set_A v s)
  | LDB => let v := operand mod 256 in set_ZF (v =? 0) (set_B v s)
  | LDA_MEM => let v := cell s operand mod 256 in set_ZF (v =? 0) (set_A v s)
  | STA => set_mem (<[Z.to_nat operand := A s mod 256]> (mem s)) s
  | ADD => let v := (A s + B s) mod 256 in set_ZF (v =? 0) (set_A v s)
  | SUB => let v := (A s - B s) mod 256 in set_ZF (v =? 0) (set_A v s)
  | JMP => set_PC (operand mod 65536) s
  | JZ => if ZF s then set_PC (operand mod 65536) s else s
  | OUT => set_output (output s ++ [A s]) s
  | HLT => set_running false s
  end.

(** The state in which an instruction acts: [PC] is past the opcode byte
    and, for an instruction with an operand, past the two operand bytes. *)
Definition after_fetch (m : mnemonic) (s : cpu) : cpu :=
  let pc1 := (PC s + 1) mod 65536 in
  if spec_has_operand m then set_PC ((pc1 + 2) mod 65536) s
  else set_PC pc1 s.

(** The operand of an instruction tuple: its second component, or 0. *)
Definition arg_of (ins : instr) : Z :=
  match snd ins with Some a => a | None => 0 end.

(** A mnemonic the loader finds in the table. *)
Definition known (ins : instr) : Prop :=
  is_Some (OPCODES_INV !! upper (fst ins)).

Definition opcode_byte (ins : instr) : Z :=
  default 0 (OPCODES_INV !! upper (fst ins)).

(** The memory after the loop has encoded [p] from position [k] on. *)
Fixpoint store_prog (p : list instr) (k : nat) (m : list Z) : list Z :=
  match p with
  | [] => m
  | ins :: rest =>
      store_prog rest (k + 3)
        (<[S (S k) := Z.land (Z.shiftr (arg_of ins) 8) 0xFF]>
           (<[S k := Z.land (arg_of ins) 0xFF]>
              (<[k := opcode_byte ins]> m)))
  end.

(** The program of the first claim. *)
Definition add_program (x y : Z) : list instr :=
  [ ("LDA", Some x); ("LDB", Some y); ("ADD", Some 0); ("OUT", Some 0);
    ("HLT", Some 0) ].

(** Two characters that are the same letter: equal, or an upper-case ASCII
    letter and the lower-case letter 32 code points above it. *)
Definition same_letter (c c' : ascii) : Prop :=
  c = c' \/
  ((65 <= N_of_ascii c <= 90)%N /\ N_of_ascii c' = (N_of_ascii c + 32)%N) \/
  ((65 <= N_of_ascii c' <= 90)%N /\ N_of_ascii c = (N_of_ascii c' + 32)%N).

(** Two spellings of one mnemonic that differ in case only. *)
Inductive case_variant : string -> string -> Prop :=
| case_variant_nil : case_variant "" ""
| case_variant_cons c c' t t' :
    same_letter c c' -> case_variant t t' ->
    case_variant (String c t) (String c' t').

Definition instr_variant (i i' : instr) : Prop :=
  case_variant (fst i) (fst i') /\ snd i = snd i'.

(** The value that the step from [s] to [s'] wrote into a register: the new
    [B] for LDB, the new [A] for LDA, LDA_MEM, ADD and SUB, nothing for the
    other instructions. *)
Definition written (s s' : cpu) : option Z :=
  let b := cell s (PC s) in
  if b =? spec_opcode LDB then Some (B s')
  else if (b =? spec_opcode LDA) || (b =? spec_opcode LDA_MEM)
          || (b =? spec_opcode ADD) || (b =? spec_opcode SUB)
       then Some (A s')
       else None.

(** [n] steps in a row, remembering the last value written to a register;
    a step that raises ends the sequence. *)
Fixpoint steps_tracking (n : nat) (last : option Z) (s : cpu)
  : outcome (option Z) * cpu :=
  match n with
  | O => (Ret last, s)
  | S n' =>
      match step s with
      | (Ret _, s') =>
          steps_tracking n'
            (match written s s' with Some v => Some v | None => last end) s'
      | (Raise e, s') => (Raise e, s')
      end
  end.

(** The registers, the flags and the output of [s'] are those of [s]. *)
Definition same_registers (s s' : cpu) : Prop :=
  A s' = A s /\ B s' = B s /\ PC s' = PC s /\ ZF s' = ZF s /\
  running s' = running s /\ output s' = output s.

(** * Properties *)

(** ** The monad's equations *)

Lemma bind_ret {T U} (x : T) (k : T -> M U) s : bind (ret x) k s = k x s.
Proof. reflexivity. Qed.

Lemma bind_gets {T U} (f : cpu -> T) (k : T -> M U) s :
  bind (gets f) k s = k (f s) s.
Proof. reflexivity. Qed.

Lemma bind_modify {U} (f : cpu -> cpu) (k : unit -> M U) s :
  bind (modify f) k s = k tt (f s).
Proof. reflexivity. Qed.

Lemma bind_raise {T U} (e : exn) (k : T -> M U) s :
  bind (raise e) k s = (Raise e, s).
Proof. reflexivity. Qed.

Lemma bind_assoc {T U V} (m : M T) (k : T -> M U) (h : U -> M V) s :
  bind (bind m k) h s = bind m (fun x => bind (k x) h) s.
Proof. unfold bind. destruct (m s) as [[x|e] s']; reflexivity. Qed.

(** ** Masks *)

Lemma land_FF a : Z.land a 0xFF = a mod 256.
Proof. change 0xFF with (Z.ones 8). now rewrite Z.land_ones by lia. Qed.

Lemma land_FFFF a : Z.land a 0xFFFF = a mod 65536.
Proof. change 0xFFFF with (Z.ones 16). now rewrite Z.land_ones by lia. Qed.

Lemma land_FF_range a : 0 <= Z.land a 0xFF < 256.
Proof. rewrite land_FF. apply Z.mod_pos_bound. lia. Qed.

Lemma land_FFFF_range a : 0 <= Z.land a 0xFFFF < 65536.
Proof. rewrite land_FFFF. apply Z.mod_pos_bound. lia. Qed.

(** Two bytes, low one first, make a 16-bit value. *)
Lemma le16_value lo hi :
  0 <= lo < 256 -> 0 <= hi < 256 ->
  Z.lor lo (Z.shiftl hi 8) = lo + 256 * hi.
Proof.
  intros Hlo Hhi.
  assert (Hd : Z.land lo (Z.shiftl hi 8) = 0).
  { apply Z.bits_inj'. intros n Hn.
    rewrite Z.land_spec, Z.bits_0.
    destruct (Z.ltb_spec n 8).
    - rewrite Z.shiftl_spec_low by lia. apply andb_false_r.
    - rewrite (Z.bits_above_log2 lo n); [reflexivity | lia |].
      destruct (Z.eq_dec lo 0) as [->|]; [simpl; lia|].
      assert (Z.log2 lo < 8) by (apply Z.log2_lt_pow2; lia). lia. }
  rewrite <- Z.lxor_lor by exact Hd.
  rewrite <- Z.add_nocarry_lxor by exact Hd.
  rewrite Z.shiftl_mul_pow2 by lia. change (2 ^ 8) with 256. lia.
Qed.

Lemma le16_range lo hi :
  0 <= lo < 256 -> 0 <= hi < 256 ->
  0 <= Z.lor lo (Z.shiftl hi 8) < 65536.
Proof. intros. rewrite le16_value by assumption. lia. Qed.

(** ** Subscripts *)

Lemma list_index_in_range l i :
  0 <= i < Z.of_nat (length l) -> list_index l i = Some (Z.to_nat i).
Proof.
  intros H. unfold list_index.
  destruct (Z.leb_spec 0 i); [|lia].
  destruct (Z.ltb_spec i (Z.of_nat (length l))); [reflexivity|lia].
Qed.

Lemma list_index_above l i :
  Z.of_nat (length l) <= i -> list_index l i = None.
Proof.
  intros H. unfold list_index.
  destruct (Z.ltb_spec i (Z.of_nat (length l))); [lia|].
  rewrite andb_false_r.
  destruct (Z.ltb_spec i 0); [lia|reflexivity].
Qed.

Lemma list_index_Some_lt l i k :
  list_index l i = Some k -> (k < length l)%nat.
Proof.
  unfold list_index.
  destruct (Z.leb_spec 0 i); destruct (Z.ltb_spec i (Z.of_nat (length l)));
    simpl; try (intros [= <-]; lia);
    destruct (Z.ltb_spec i 0); destruct (Z.leb_spec (- Z.of_nat (length l)) i);
    simpl; try discriminate; intros [= <-]; lia.
Qed.

Lemma mem_get_in_range i s :
  0 <= i < Z.of_nat (length (mem s)) ->
  mem_get i s = (Ret (mem s !!! Z.to_nat i), s).
Proof.
  intros H. unfold mem_get. rewrite list_index_in_range by exact H.
  destruct (lookup_lt_is_Some_2 (mem s) (Z.to_nat i)) as [v Hv]; [lia|].
  rewrite Hv. now rewrite (list_lookup_total_correct _ _ _ Hv).
Qed.

Lemma mem_put_in_range i v s :
  0 <= i < Z.of_nat (length (mem s)) ->
  mem_put i v s = (Ret tt, set_mem (<[Z.to_nat i := v]> (mem s)) s).
Proof.
  intros H. unfold mem_put. now rewrite list_index_in_range by exact H.
Qed.

Lemma mem_put_above i v s :
  Z.of_nat (length (mem s)) <= i -> mem_put i v s = (Raise IndexError, s).
Proof.
  intros H. unfold mem_put. now rewrite list_index_above by exact H.
Qed.

(** ** The opcode table *)

Lemma OPCODES_INV_spec m : OPCODES_INV !! spec_name m = Some (spec_opcode m).
Proof. destruct m; vm_compute; reflexivity. Qed.

Lemma opcodes_inv_spec m : opcodes_inv (spec_name m) = ret (spec_opcode m).
Proof. unfold opcodes_inv. now rewrite OPCODES_INV_spec. Qed.

(** Every key of the inverted table is one of the ten names. *)
Lemma OPCODES_INV_Some key c :
  OPCODES_INV !! key = Some c ->
  exists m, key = spec_name m /\ c = spec_opcode m.
Proof.
  unfold OPCODES_INV, OPCODES. cbn [foldl fst snd].
  rewrite !lookup_insert_Some, lookup_empty.
  intros H.
  repeat match goal with
         | H : _ \/ _ |- _ => destruct H as [H|H]
         | H : _ /\ _ |- _ => destruct H as [? H]
         end; try discriminate; subst.
  - now exists HLT.
  - now exists OUT.
  - now exists JZ.
  - now exists JMP.
  - now exists SUB.
  - now exists ADD.
  - now exists STA.
  - now exists LDA_MEM.
  - now exists LDB.
  - now exists LDA.
Qed.

Lemma OPCODES_INV_byte key c : OPCODES_INV !! key = Some c -> 0 <= c < 256.
Proof.
  intros H. destruct (OPCODES_INV_Some _ _ H) as (m & _ & ->).
  destruct m; simpl; lia.
Qed.

Lemma spec_opcode_inj m m' : spec_opcode m = spec_opcode m' -> m = m'.
Proof. destruct m, m'; simpl; intros H; try reflexivity; discriminate H. Qed.

Lemma cell_byte s i : wf s -> 0 <= i < 65536 -> 0 <= cell s i < 256.
Proof.
  intros W Hi. unfold cell.
  assert (Hl := wf_len s W). unfold MEM_SIZE in Hl.
  apply (Forall_lookup_1 _ _ (Z.to_nat i) _ (wf_bytes s W)).
  apply list_lookup_lookup_total_lt. lia.
Qed.

Lemma bind_mem_get {U} i (k : Z -> M U) s :
  0 <= i < Z.of_nat (length (mem s)) ->
  bind (mem_get i) k s = k (cell s i) s.
Proof. intros H. unfold bind. now rewrite mem_get_in_range by exact H. Qed.

Lemma bind_mem_put {U} i v (k : unit -> M U) s :
  0 <= i < Z.of_nat (length (mem s)) ->
  bind (mem_put i v) k s = k tt (set_mem (<[Z.to_nat i := v]> (mem s)) s).
Proof. intros H. unfold bind. now rewrite mem_put_in_range by exact H. Qed.

Lemma operand_at_range s pc :
  wf s -> 0 <= pc < 65536 -> 0 <= operand_at s pc < 65536.
Proof.
  intros W Hpc. unfold operand_at.
  assert (0 <= cell s pc < 256) by now apply cell_byte.
  assert (0 <= cell s ((pc + 1) mod 65536) < 256).
  { apply cell_byte; [exact W|]. apply Z.mod_pos_bound. lia. }
  lia.
Qed.

Lemma bind_fetch_operand {U} (k : Z -> M U) s :
  wf s ->
  bind fetch_operand k s
  = k (operand_at s (PC s)) (set_PC ((PC s + 2) mod 65536) s).
Proof.
  intros W. assert (Hl := wf_len s W). assert (Hp := wf_PC s W).
  unfold MEM_SIZE in Hl.
  unfold fetch_operand. rewrite !bind_assoc, bind_gets.
  rewrite !bind_assoc, bind_mem_get by lia.
  rewrite !bind_assoc, bind_mem_get
    by (rewrite land_FFFF, Hl; apply Z.mod_pos_bound; lia).
  rewrite !bind_assoc, bind_gets, !bind_assoc, bind_modify, bind_ret.
  rewrite !land_FFFF. unfold operand_at.
  rewrite le16_value; [reflexivity| |].
  - now apply cell_byte.
  - apply cell_byte; [exact W|]. apply Z.mod_pos_bound. lia.
Qed.

Lemma wf_set_PC s pc : wf s -> 0 <= pc < 65536 -> wf (set_PC pc s).
Proof. intros [] H. now constructor. Qed.

(** One step on a known opcode. *)
Lemma step_known s m :
  wf s -> cell s (PC s) = spec_opcode m ->
  step s
  = (Ret tt, spec_act m (operand_at s ((PC s + 1) mod 65536)) (after_fetch m s)).
Proof.
  intros W Hop. assert (Hl := wf_len s W). assert (Hp := wf_PC s W).
  unfold MEM_SIZE in Hl.
  set (pc1 := (PC s + 1) mod 65536).
  assert (Hpc1 : 0 <= pc1 < 65536) by (apply Z.mod_pos_bound; lia).
  assert (W1 : wf (set_PC pc1 s)) by now apply wf_set_PC.
  assert (Hopr := operand_at_range s pc1 W Hpc1).
  unfold step. rewrite bind_gets, bind_mem_get by lia.
  rewrite bind_gets, bind_modify, Hop, land_FFFF. fold pc1.
  change (opcodes_inv "LDA") with (opcodes_inv (spec_name LDA)).
  change (opcodes_inv "LDB") with (opcodes_inv (spec_name LDB)).
  change (opcodes_inv "LDA_MEM") with (opcodes_inv (spec_name LDA_MEM)).
  change (opcodes_inv "STA") with (opcodes_inv (spec_name STA)).
  change (opcodes_inv "ADD") with (opcodes_inv (spec_name ADD)).
  change (opcodes_inv "SUB") with (opcodes_inv (spec_name SUB)).
  change (opcodes_inv "JMP") with (opcodes_inv (spec_name JMP)).
  change (opcodes_inv "JZ") with (opcodes_inv (spec_name JZ)).
  change (opcodes_inv "OUT") with (opcodes_inv (spec_name OUT)).
  change (opcodes_inv "HLT") with (opcodes_inv (spec_name HLT)).
  unfold after_fetch. fold pc1.
  destruct m; cbn [spec_opcode spec_has_operand spec_act];
    repeat (rewrite opcodes_inv_spec, bind_ret; cbn [spec_opcode Z.eqb Pos.eqb]);
    try rewrite (bind_fetch_operand _ _ W1);
    change (operand_at (set_PC pc1 s)) with (operand_at s);
    cbn [PC set_PC mem]; fold pc1.
  - rewrite bind_modify, bind_gets. unfold modify. cbn. now rewrite land_FF.
  - rewrite bind_modify, bind_gets. unfold modify. cbn. now rewrite land_FF.
  - rewrite bind_mem_get by (cbn [mem set_PC]; lia).
    rewrite bind_modify, bind_gets. unfold modify, cell. cbn.
    now rewrite land_FF.
  - rewrite bind_gets. rewrite mem_put_in_range by (cbn [mem set_PC]; lia).
    cbn. now rewrite land_FF.
  - rewrite !bind_gets, bind_modify, bind_gets. unfold modify. cbn.
    now rewrite land_FF.
  - rewrite !bind_gets, bind_modify, bind_gets. unfold modify. cbn.
    now rewrite land_FF.
  - unfold modify. cbn. now rewrite land_FFFF.
  - rewrite bind_gets. cbn. destruct (ZF s); unfold modify, ret; cbn;
      now rewrite ?land_FFFF.
  - rewrite !bind_gets. reflexivity.
  - reflexivity.
Qed.

(** One step on a byte that is no opcode. *)
Lemma step_unknown s :
  wf s -> (forall m, cell s (PC s) <> spec_opcode m) ->
  step s
  = (Raise (RuntimeError
              (unknown_opcode_msg (cell s (PC s)) ((PC s + 1) mod 65536 - 1))),
     set_PC ((PC s + 1) mod 65536) s).
Proof.
  intros W Hop. assert (Hl := wf_len s W). assert (Hp := wf_PC s W).
  unfold MEM_SIZE in Hl.
  unfold step. rewrite bind_gets, bind_mem_get by lia.
  rewrite bind_gets, bind_modify, land_FFFF.
  assert (E : forall m, (cell s (PC s) =? spec_opcode m) = false)
    by (intros m; apply Z.eqb_neq, Hop).
  change (opcodes_inv "LDA") with (opcodes_inv (spec_name LDA)).
  change (opcodes_inv "LDB") with (opcodes_inv (spec_name LDB)).
  change (opcodes_inv "LDA_MEM") with (opcodes_inv (spec_name LDA_MEM)).
  change (opcodes_inv "STA") with (opcodes_inv (spec_name STA)).
  change (opcodes_inv "ADD") with (opcodes_inv (spec_name ADD)).
  change (opcodes_inv "SUB") with (opcodes_inv (spec_name SUB)).
  change (opcodes_inv "JMP") with (opcodes_inv (spec_name JMP)).
  change (opcodes_inv "JZ") with (opcodes_inv (spec_name JZ)).
  change (opcodes_inv "OUT") with (opcodes_inv (spec_name OUT)).
  change (opcodes_inv "HLT") with (opcodes_inv (spec_name HLT)).
  repeat (rewrite opcodes_inv_spec, bind_ret, E).
  reflexivity.
Qed.

Lemma opcode_cases (b : Z) :
  (exists m, b = spec_opcode m) \/ (forall m, b <> spec_opcode m).
Proof.
  destruct (decide (b ∈ map spec_opcode
                      [LDA; LDB; LDA_MEM; STA; ADD; SUB; JMP; JZ; OUT; HLT]))
    as [Hin|Hnin].
  - left. apply list_elem_of_In, in_map_iff in Hin.
    destruct Hin as (m & <- & _). now exists m.
  - right. intros m ->. apply Hnin, list_elem_of_In, in_map.
    destruct m; simpl; tauto.
Qed.

(** ** The invariant is kept *)

Lemma wf_spec_act m operand s :
  wf s -> 0 <= operand < 65536 -> wf (spec_act m operand s).
Proof.
  intros W Ho. destruct W as [Hl Hb Ha Hb' Hp].
  assert (forall a, 0 <= a mod 256 < 256) by (intros; apply Z.mod_pos_bound; lia).
  assert (forall a, 0 <= a mod 65536 < 65536)
    by (intros; apply Z.mod_pos_bound; lia).
  destruct m; cbn [spec_act]; try (constructor; cbn; auto; fail).
  - constructor; cbn; auto.
    + now rewrite length_insert.
    + apply Forall_insert; auto.
  - destruct (ZF s); constructor; cbn; auto.
Qed.

Lemma wf_after_fetch m s : wf s -> wf (after_fetch m s).
Proof.
  intros W. unfold after_fetch.
  destruct (spec_has_operand m); apply wf_set_PC; try exact W;
    apply Z.mod_pos_bound; lia.
Qed.

Lemma step_wf s : wf s -> wf (snd (step s)).
Proof.
  intros W. destruct (opcode_cases (cell s (PC s))) as [[m Hm]|Hn].
  - rewrite (step_known s m W Hm). cbn [snd].
    apply wf_spec_act; [now apply wf_after_fetch|].
    apply operand_at_range; [exact W|]. apply Z.mod_pos_bound. lia.
  - rewrite (step_unknown s W Hn). cbn [snd].
    apply wf_set_PC; [exact W|]. apply Z.mod_pos_bound. lia.
Qed.

Lemma init_wf : wf init.
Proof.
  constructor; cbn; try lia.
  - now rewrite length_replicate.
  - apply Forall_replicate. lia.
Qed.

(** ** The loader *)

Lemma set_mem_id s : set_mem (mem s) s = s.
Proof. now destruct s. Qed.

Lemma set_mem_set_mem m m' s : set_mem m (set_mem m' s) = set_mem m s.
Proof. reflexivity. Qed.

Lemma store_prog_length p : forall k m, length (store_prog p k m) = length m.
Proof.
  induction p as [|ins rest IH]; intros k m; cbn [store_prog]; [reflexivity|].
  now rewrite IH, !length_insert.
Qed.

Lemma load_loop_ok p : forall (k : nat) s,
  Forall known p ->
  (k + 3 * length p <= length (mem s))%nat ->
  load_loop p (Z.of_nat k) s
  = (Ret (Z.of_nat (k + 3 * length p)), set_mem (store_prog p k (mem s)) s).
Proof.
  induction p as [|ins rest IH]; intros k s Hk Hlen.
  - cbn. now rewrite Nat.add_0_r, set_mem_id.
  - apply Forall_cons in Hk as [[c Hc] Hrest]. cbn [length] in Hlen.
    cbn [load_loop]. unfold opcodes_inv at 1. rewrite Hc, bind_ret.
    rewrite bind_mem_put by lia.
    rewrite bind_mem_put by (cbn [mem set_mem]; rewrite length_insert; lia).
    rewrite bind_mem_put by (cbn [mem set_mem]; rewrite !length_insert; lia).
    cbn [mem set_mem].
    replace (Z.of_nat k + 1 + 2) with (Z.of_nat (k + 3)) by lia.
    rewrite IH; [|exact Hrest|cbn [mem set_mem]; rewrite !length_insert; lia].
    cbn [mem set_mem store_prog length]. unfold opcode_byte. rewrite Hc.
    cbn [default].
    replace (Z.to_nat (Z.of_nat k)) with k by lia.
    replace (Z.to_nat (Z.of_nat k + 1)) with (S k) by lia.
    replace (Z.to_nat (Z.of_nat k + 1 + 1)) with (S (S k)) by lia.
    do 2 f_equal. lia.
Qed.

(** A program that does not fit: some write of the loop is out of range. *)
Lemma load_loop_overflow p : forall (k : nat) s,
  Forall known p ->
  (k <= length (mem s))%nat ->
  (length (mem s) < k + 3 * length p)%nat ->
  exists s', load_loop p (Z.of_nat k) s = (Raise IndexError, s').
Proof.
  induction p as [|ins rest IH]; intros k s Hk Hle Hlt.
  - cbn in Hlt. lia.
  - apply Forall_cons in Hk as [[c Hc] Hrest]. cbn [length] in Hlt.
    cbn [load_loop]. unfold opcodes_inv at 1. rewrite Hc, bind_ret.
    destruct (decide (k = length (mem s))) as [E0|N0].
    { unfold bind at 1. rewrite mem_put_above by lia. eauto. }
    rewrite bind_mem_put by lia.
    destruct (decide (S k = length (mem s))) as [E1|N1].
    { unfold bind at 1.
      rewrite mem_put_above by (cbn [mem set_mem]; rewrite length_insert; lia).
      eauto. }
    rewrite bind_mem_put by (cbn [mem set_mem]; rewrite length_insert; lia).
    destruct (decide (S (S k) = length (mem s))) as [E2|N2].
    { unfold bind at 1.
      rewrite mem_put_above
        by (cbn [mem set_mem]; rewrite !length_insert; lia).
      eauto. }
    rewrite bind_mem_put by (cbn [mem set_mem]; rewrite !length_insert; lia).
    replace (Z.of_nat k + 1 + 2) with (Z.of_nat (k + 3)) by lia.
    apply IH; [exact Hrest| |]; cbn [mem set_mem]; rewrite !length_insert; lia.
Qed.

Lemma bind_ext {T U} (m : M T) (k1 k2 : T -> M U) s :
  (forall x s', k1 x s' = k2 x s') -> bind m k1 s = bind m k2 s.
Proof. intros H. unfold bind. destruct (m s) as [[x|e] s']; auto. Qed.

Lemma load_loop_app p1 p2 : forall addr s,
  load_loop (p1 ++ p2) addr s = bind (load_loop p1 addr) (load_loop p2) s.
Proof.
  induction p1 as [|ins rest IH]; intros addr s; [reflexivity|].
  cbn [app load_loop].
  rewrite bind_assoc. apply bind_ext. intros c s0.
  rewrite bind_assoc. apply bind_ext. intros _ s1.
  rewrite bind_assoc. apply bind_ext. intros _ s2.
  rewrite bind_assoc. apply bind_ext. intros _ s3.
  apply IH.
Qed.

Lemma store_prog_lookup_lt p : forall k m j,
  (j < k)%nat -> store_prog p k m !! j = m !! j.
Proof.
  induction p as [|ins rest IH]; intros k m j Hj; cbn [store_prog];
    [reflexivity|].
  rewrite IH by lia. now rewrite !list_lookup_insert_ne by lia.
Qed.

Lemma store_prog_lookup_ge p : forall k m j,
  (k + 3 * length p <= j)%nat -> store_prog p k m !! j = m !! j.
Proof.
  induction p as [|ins rest IH]; intros k m j Hj; cbn [store_prog];
    [reflexivity|].
  cbn [length] in Hj. rewrite IH by lia.
  now rewrite !list_lookup_insert_ne by lia.
Qed.

Lemma store_prog_lookup_instr p : forall k m i ins,
  p !! i = Some ins ->
  (k + 3 * length p <= length m)%nat ->
  store_prog p k m !! (k + 3 * i)%nat = Some (opcode_byte ins) /\
  store_prog p k m !! (k + 3 * i + 1)%nat = Some (Z.land (arg_of ins) 0xFF) /\
  store_prog p k m !! (k + 3 * i + 2)%nat
  = Some (Z.land (Z.shiftr (arg_of ins) 8) 0xFF).
Proof.
  induction p as [|a rest IH]; intros k m i ins Hi Hlen; [discriminate|].
  cbn [length] in Hlen. cbn [store_prog]. destruct i as [|i].
  - injection Hi as ->. rewrite !store_prog_lookup_lt by lia.
    replace (k + 3 * 0)%nat with k by lia.
    replace (k + 1)%nat with (S k) by lia.
    replace (k + 2)%nat with (S (S k)) by lia.
    repeat split.
    + rewrite !list_lookup_insert_ne by lia.
      apply list_lookup_insert_eq. lia.
    + rewrite list_lookup_insert_ne by lia.
      apply list_lookup_insert_eq. rewrite length_insert. lia.
    + apply list_lookup_insert_eq. rewrite !length_insert. lia.
  - cbn in Hi.
    replace (k + 3 * S i)%nat with (k + 3 + 3 * i)%nat by lia.
    apply IH; [exact Hi|]. rewrite !length_insert. lia.
Qed.

(** A program that fits is loaded whole, the closing [HLT] byte included. *)
Lemma load_program_ok p s :
  Forall known p ->
  (3 * length p < length (mem s))%nat ->
  load_program p s
  = (Ret tt,
     set_mem (<[(3 * length p)%nat := 0xFF]> (store_prog p 0 (mem s))) s).
Proof.
  intros Hk Hlen. unfold load_program.
  unfold bind at 1. change 0 with (Z.of_nat 0).
  rewrite load_loop_ok by (try exact Hk; lia).
  change (opcodes_inv "HLT") with (opcodes_inv (spec_name HLT)).
  rewrite opcodes_inv_spec, bind_ret.
  rewrite mem_put_in_range
    by (cbn [mem set_mem]; rewrite store_prog_length; lia).
  rewrite set_mem_set_mem. cbn [mem set_mem spec_opcode].
  replace (Z.to_nat (Z.of_nat (0 + 3 * length p))) with (3 * length p)%nat
    by lia.
  reflexivity.
Qed.

(** A program that does not fit makes the loader raise [IndexError]. *)
Lemma load_program_overflow p s :
  Forall known p ->
  (length (mem s) <= 3 * length p)%nat ->
  exists s', load_program p s = (Raise IndexError, s').
Proof.
  intros Hk Hlen. unfold load_program.
  destruct (decide (length (mem s) = 3 * length p)%nat) as [E|N].
  - unfold bind at 1. change 0 with (Z.of_nat 0).
    rewrite load_loop_ok by (try exact Hk; lia).
    change (opcodes_inv "HLT") with (opcodes_inv (spec_name HLT)).
    rewrite opcodes_inv_spec, bind_ret.
    rewrite mem_put_above
      by (cbn [mem set_mem]; rewrite store_prog_length; lia).
    eauto.
  - destruct (load_loop_overflow p 0 s Hk) as [s' Hs']; [lia|lia|].
    unfold bind. change 0 with (Z.of_nat 0). rewrite Hs'. eauto.
Qed.

(** At the first unknown mnemonic the loader raises [KeyError] with the
    upper-cased mnemonic, provided the instructions before it fit. *)
Lemma load_program_unknown p1 ins p2 s :
  Forall known p1 -> ~ known ins ->
  (3 * length p1 <= length (mem s))%nat ->
  load_program (p1 ++ ins :: p2) s
  = (Raise (KeyError (upper (fst ins))), set_mem (store_prog p1 0 (mem s)) s).
Proof.
  intros Hk Hu Hlen. unfold load_program.
  unfold bind at 1. rewrite load_loop_app.
  unfold bind at 1. change 0 with (Z.of_nat 0).
  rewrite load_loop_ok by (try exact Hk; lia).
  cbn [load_loop]. unfold opcodes_inv at 1.
  destruct (OPCODES_INV !! upper ins.1) as [c|] eqn:E.
  - exfalso. apply Hu. unfold known. rewrite E. eauto.
  - reflexivity.
Qed.

(** The instructions before the first unknown one do not fit. *)
Lemma load_program_unknown_overflow p1 ins p2 s :
  Forall known p1 ->
  (length (mem s) < 3 * length p1)%nat ->
  exists s', load_program (p1 ++ ins :: p2) s = (Raise IndexError, s').
Proof.
  intros Hk Hlen. unfold load_program.
  destruct (load_loop_overflow p1 0 s Hk) as [s' Hs']; [lia|lia|].
  unfold bind at 1. rewrite load_loop_app.
  unfold bind at 1. change 0 with (Z.of_nat 0). rewrite Hs'. eauto.
Qed.

(** The loader keeps the state well-formed, whether it returns or raises. *)
Lemma wf_bind {T U} (m : M T) (k : T -> M U) s :
  wf (snd (m s)) -> (forall x s', wf s' -> wf (snd (k x s'))) ->
  wf (snd (bind m k s)).
Proof.
  intros Hm Hk. unfold bind. destruct (m s) as [[x|e] s']; cbn in *; auto.
Qed.

Lemma wf_mem_put i v s : wf s -> 0 <= v < 256 -> wf (snd (mem_put i v s)).
Proof.
  intros W Hv. unfold mem_put. destruct (list_index (mem s) i); [|exact W].
  destruct W. constructor; cbn; auto.
  - now rewrite length_insert.
  - now apply Forall_insert.
Qed.

Lemma wf_load_loop p : forall addr s, wf s -> wf (snd (load_loop p addr s)).
Proof.
  induction p as [|ins rest IH]; intros addr s W; [exact W|].
  cbn [load_loop]. unfold opcodes_inv at 1.
  destruct (OPCODES_INV !! upper ins.1) as [c|] eqn:E; [|exact W].
  rewrite bind_ret.
  apply wf_bind; [apply wf_mem_put; eauto using OPCODES_INV_byte|].
  intros _ s1 W1.
  apply wf_bind; [apply wf_mem_put; auto using land_FF_range|].
  intros _ s2 W2.
  apply wf_bind; [apply wf_mem_put; auto using land_FF_range|].
  intros _ s3 W3. now apply IH.
Qed.

Lemma wf_load_program p s : wf s -> wf (snd (load_program p s)).
Proof.
  intros W. unfold load_program.
  apply wf_bind; [now apply wf_load_loop|]. intros addr s1 W1.
  change (opcodes_inv "HLT") with (opcodes_inv (spec_name HLT)).
  rewrite opcodes_inv_spec, bind_ret.
  apply wf_mem_put; [exact W1|]. cbn. lia.
Qed.

(** ** The run loop *)

Lemma run_loop_stop fuel max_steps steps s :
  running s && (steps <? max_steps) = false ->
  run_loop fuel max_steps steps s = (Ret (Some steps), s).
Proof.
  intros H. destruct fuel; cbn [run_loop]; rewrite bind_gets, H; reflexivity.
Qed.

Lemma run_loop_go fuel max_steps steps s :
  running s = true -> steps < max_steps ->
  run_loop (S fuel) max_steps steps s
  = bind step (fun _ => run_loop fuel max_steps (steps + 1)) s.
Proof.
  intros Hr Hs. cbn [run_loop]. rewrite bind_gets, Hr.
  destruct (Z.ltb_spec steps max_steps); [reflexivity|lia].
Qed.

(** The fuel [run] gives the loop is never used up: the loop returns a
    step count or a step raises. *)
Lemma run_loop_fuel fuel : forall max_steps steps s,
  max_steps - steps <= Z.of_nat fuel ->
  fst (run_loop fuel max_steps steps s) <> Ret None.
Proof.
  induction fuel as [|fuel IH]; intros max_steps steps s Hf.
  - rewrite run_loop_stop; [discriminate|].
    destruct (Z.ltb_spec steps max_steps); [lia|apply andb_false_r].
  - destruct (running s && (steps <? max_steps)) eqn:E.
    + apply andb_true_iff in E as [Hr Hs]. apply Z.ltb_lt in Hs.
      rewrite run_loop_go by assumption. unfold bind.
      destruct (step s) as [[[]|e] s']; [|discriminate].
      apply IH. lia.
    + rewrite run_loop_stop by exact E. discriminate.
Qed.

Lemma run_total max_steps s : fst (run max_steps s) <> Ret None.
Proof.
  unfold run, bind.
  assert (H := run_loop_fuel (Z.to_nat max_steps) max_steps 0 s).
  destruct (run_loop (Z.to_nat max_steps) max_steps 0 s) as [[[n|]|e] s'].
  - destruct (n >=? max_steps); discriminate.
  - exfalso. apply H; [lia|reflexivity].
  - discriminate.
Qed.

(** A state that a step maps to itself keeps the loop busy until the
    budget is used up. *)
Lemma run_loop_fixpoint s fuel : forall max_steps steps,
  step s = (Ret tt, s) -> running s = true ->
  max_steps - steps <= Z.of_nat fuel ->
  run_loop fuel max_steps steps s = (Ret (Some (Z.max steps max_steps)), s).
Proof.
  induction fuel as [|fuel IH]; intros max_steps steps Hs Hr Hf.
  - rewrite run_loop_stop.
    + now rewrite Z.max_l by lia.
    + destruct (Z.ltb_spec steps max_steps); [lia|apply andb_false_r].
  - destruct (Z.ltb_spec steps max_steps) as [Hlt|Hge].
    + rewrite run_loop_go by assumption. unfold bind. rewrite Hs.
      rewrite IH by (auto; lia). f_equal. f_equal. f_equal. lia.
    + rewrite run_loop_stop.
      * now rewrite Z.max_l by lia.
      * destruct (Z.ltb_spec steps max_steps); [lia|apply andb_false_r].
Qed.

Lemma run_fixpoint s max_steps :
  step s = (Ret tt, s) -> running s = true ->
  run max_steps s = (Raise (RuntimeError max_steps_msg), s).
Proof.
  intros Hs Hr. unfold run, bind.
  rewrite (run_loop_fixpoint s) by (auto; lia).
  destruct (Z.geb_spec (Z.max 0 max_steps) max_steps); [reflexivity|lia].
Qed.

Lemma set_PC_id s pc : PC s = pc -> set_PC pc s = s.
Proof. destruct s; cbn; now intros ->. Qed.

(** A [JMP] whose operand is its own address is a fixed point of [step]. *)
Lemma step_jmp_self s :
  wf s -> cell s (PC s) = spec_opcode JMP ->
  operand_at s ((PC s + 1) mod 65536) = PC s ->
  step s = (Ret tt, s).
Proof.
  intros W Hop Hself. rewrite (step_known s JMP W Hop).
  cbn [spec_act after_fetch spec_has_operand]. rewrite Hself.
  rewrite Z.mod_small by apply (wf_PC s W).
  change (set_PC (PC s) (set_PC ((((PC s + 1) mod 65536) + 2) mod 65536) s))
    with (set_PC (PC s) s).
  now rewrite set_PC_id.
Qed.

(** * The claims *)

(** The example program of the source file is the program of the first
    claim at 7 and 5. *)
Lemma prog_is_add_program : prog = add_program 7 5.
Proof. reflexivity. Qed.

(** C1 (fails on the code).  Loading [LDA x, LDB y, ADD, OUT, HLT] into a
    fresh CPU and running it with the default budget does not output
    [(x+y) mod 256]: [ADD] is encoded in three bytes but [step] moves [PC]
    past its opcode byte only, so the next step decodes the operand byte 0 at
    address 7 and [run] raises the decode failure with an empty output, for
    every [x] and [y]. *)
Theorem add_program_decode_failure (x y : Z) :
  let r := (do! load_program (add_program x y) in run DEFAULT_MAX_STEPS) init in
  fst r = Raise (RuntimeError "Unknown opcode 0 at PC 0007") /\
  output (snd r) = [] /\
  running (snd r) = true.
Proof. vm_compute. repeat split. Qed.

(** C4 (fails on the code).  The program [HLT] halts in one step; with a
    budget of one step [run] raises the step-budget failure although the
    engine is halted, because the test after the loop is
    [steps >= max_steps] whatever [running] is. *)
Theorem run_halt_on_last_budgeted_step :
  let s := snd (load_program [("HLT", Some 0)] init) in
  fst (load_program [("HLT", Some 0)] init) = Ret tt /\
  fst (run 1 s) = Raise (RuntimeError max_steps_msg) /\
  running (snd (run 1 s)) = false /\
  fst (run 2 s) = Ret (Some tt).
Proof. vm_compute. repeat split. Qed.

(** The address in the decode failure is the fetch address, except at the
    last cell, where it is -1. *)
Lemma step_unknown_report s :
  wf s -> (forall m, cell s (PC s) <> spec_opcode m) ->
  fst (step s)
  = Raise (RuntimeError
             (unknown_opcode_msg (cell s (PC s))
                (if PC s =? 65535 then -1 else PC s))).
Proof.
  intros W Hn. rewrite (step_unknown s W Hn). cbn [fst].
  assert (Hp := wf_PC s W).
  destruct (Z.eqb_spec (PC s) 65535) as [E|N].
  - rewrite E. reflexivity.
  - rewrite Z.mod_small by lia. do 3 f_equal. lia.
Qed.

(** C5 (fails on the code).  [JMP 65535] sends the engine to the last cell,
    which holds 0, no opcode.  The byte is fetched at address 65535, but the
    address reported is [PC - 1] computed after [PC] has wrapped to 0. *)
Theorem decode_failure_at_last_address :
  let s := snd (load_program [("JMP", Some 65535)] init) in
  let s1 := snd (step s) in
  fst (step s) = Ret tt /\ PC s1 = 65535 /\ cell s1 (PC s1) = 0 /\
  fst (step s1) = Raise (RuntimeError "Unknown opcode 0 at PC -001") /\
  fst (run DEFAULT_MAX_STEPS s)
  = Raise (RuntimeError "Unknown opcode 0 at PC -001").
Proof. vm_compute. repeat split. Qed.

(** C8.  The one-instruction program [JMP 0] jumps to its own address: the
    loaded state is a fixed point of [step], the engine stays running, and
    [run] with the default budget of 100000 steps raises the step-budget
    failure. *)
Theorem jmp_self_exceeds_budget :
  let s := snd (load_program [("JMP", Some 0)] init) in
  fst (load_program [("JMP", Some 0)] init) = Ret tt /\
  step s = (Ret tt, s) /\
  running s = true /\
  DEFAULT_MAX_STEPS = 100000 /\
  run DEFAULT_MAX_STEPS s = (Raise (RuntimeError max_steps_msg), s).
Proof.
  intros s.
  assert (W : wf s) by apply wf_load_program, init_wf.
  assert (Hs : step s = (Ret tt, s)).
  { apply step_jmp_self; [exact W| |]; vm_compute; reflexivity. }
  assert (Hr : running s = true) by (vm_compute; reflexivity).
  split; [vm_compute; reflexivity|].
  split; [exact Hs|].
  split; [exact Hr|].
  split; [reflexivity|].
  now apply run_fixpoint.
Qed.

Ltac elem_of_cases H :=
  repeat (apply elem_of_cons in H as [H|H]; [try discriminate H|]);
  try (apply elem_of_nil in H; destruct H).

Ltac elem_of_list :=
  repeat (apply elem_of_cons; first [left; reflexivity | right]).

(** C2.  In a well-formed state one step reads the opcode at [PC] and moves
    [PC] one cell on (mod 65536).  For LDA, LDB, LDA_MEM, STA, JMP and JZ it
    then reads the two cells at the new [PC] as a little-endian operand and
    moves [PC] two more cells on (mod 65536) before the instruction acts; for
    ADD, SUB, OUT and HLT the instruction acts at once, whatever the next
    cells hold, and [PC] ends one cell after the opcode.  A byte that is no
    opcode raises with [PC] one cell on. *)
Theorem step_fetch_decode (s : cpu) (W : wf s) :
  let pc1 := (PC s + 1) mod 65536 in
  let pc3 := (pc1 + 2) mod 65536 in
  let operand := cell s pc1 + 256 * cell s ((pc1 + 1) mod 65536) in
  (forall m, cell s (PC s) = spec_opcode m ->
     (m ∈ [LDA; LDB; LDA_MEM; STA; JMP; JZ] ->
        step s = (Ret tt, spec_act m operand (set_PC pc3 s))) /\
     (m ∈ [LDA; LDB; LDA_MEM; STA] -> PC (snd (step s)) = pc3) /\
     (m ∈ [ADD; SUB; OUT; HLT] ->
        (forall v, step s = (Ret tt, spec_act m v (set_PC pc1 s))) /\
        PC (snd (step s)) = pc1)) /\
  ((forall m, cell s (PC s) <> spec_opcode m) ->
     exists e, step s = (Raise e, set_PC pc1 s)).
Proof.
  intros pc1 pc3 operand. split.
  - intros m Hop. rewrite (step_known s m W Hop).
    fold pc1. change (operand_at s pc1) with operand.
    split; [|split]; intros Hm.
    + destruct m; try reflexivity; elem_of_cases Hm.
    + destruct m; try reflexivity; elem_of_cases Hm.
    + destruct m; elem_of_cases Hm; (split; [intros v|]; reflexivity).
  - intros Hn. rewrite (step_unknown s W Hn). eauto.
Qed.

Lemma step_fetch_decode_witness :
  let s := snd (load_program (add_program 7 5) init) in
  wf s /\ cell s (PC s) = spec_opcode LDA /\ PC (snd (step s)) = 3 /\
  A (snd (step s)) = 7.
Proof.
  intros s.
  assert (W : wf s) by apply wf_load_program, init_wf.
  assert (Hop : cell s (PC s) = spec_opcode LDA) by (vm_compute; reflexivity).
  split; [exact W|]. split; [exact Hop|].
  destruct (step_fetch_decode s W) as [H _].
  destruct (H LDA Hop) as (H1 & H2 & _).
  split.
  - rewrite H2 by (apply elem_of_cons; now left). vm_compute. reflexivity.
  - rewrite H1 by (apply elem_of_cons; now left). vm_compute. reflexivity.
Defined.

Lemma upper_ascii_code c :
  (N_of_ascii (upper_ascii c) <? 128)%N = (N_of_ascii c <? 128)%N.
Proof.
  unfold upper_ascii.
  destruct (N.leb_spec 97 (N_of_ascii c)); [|reflexivity].
  destruct (N.leb_spec (N_of_ascii c) 122); [|reflexivity].
  cbn [andb]. rewrite N_ascii_embedding by lia.
  destruct (N.ltb_spec (N_of_ascii c - 32) 128);
    destruct (N.ltb_spec (N_of_ascii c) 128); reflexivity || lia.
Qed.

Lemma is_ascii_upper n : is_ascii (upper n) = is_ascii n.
Proof.
  induction n as [|c t IH]; [reflexivity|].
  cbn [upper is_ascii]. now rewrite upper_ascii_code, IH.
Qed.

(** A mnemonic that the loader accepts is an ASCII string, on which
    [upper] is [str.upper]. *)
Lemma known_is_ascii ins : known ins -> is_ascii (fst ins) = true.
Proof.
  intros [c Hc]. destruct (OPCODES_INV_Some _ _ Hc) as (m & Hm & _).
  rewrite <- is_ascii_upper, Hm. now destruct m.
Qed.

Lemma known_mnemonic m a : known (spec_name m, a).
Proof. unfold known. cbn [fst]. destruct m; vm_compute; eauto. Qed.

Lemma length_replicate_big {T} (n : Z) (x : T) :
  length (replicate (Z.to_nat n) x) = Z.to_nat n.
Proof. apply length_replicate. Qed.

(** C3, as stated, fails: a sequence of 21846 known instructions needs
    65538 cells, and the loader raises [IndexError] at the first write past
    the last cell instead of writing the program and the closing byte. *)
Lemma load_program_too_long_for_layout :
  let p := replicate (Z.to_nat 21846) ("HLT", Some 0) in
  Forall known p /\
  exists s', load_program p init = (Raise IndexError, s').
Proof.
  intros p.
  assert (Hk : Forall known p)
    by (apply Forall_replicate, (known_mnemonic HLT)).
  split; [exact Hk|].
  apply load_program_overflow; [exact Hk|].
  unfold p. rewrite length_replicate_big. cbn [mem init].
  rewrite length_replicate. unfold MEM_SIZE. lia.
Qed.

(** C3, amended.  For every sequence of at most 21845 instructions with
    known mnemonics, [load_program] on a 65536-cell memory returns, and
    afterwards instruction [i] occupies the cells [3i], [3i+1], [3i+2] with
    its opcode byte, the low byte and the high byte of its operand; the
    cell after the last instruction holds 0xFF; every later cell is
    unchanged; nothing but the memory changes. *)
Theorem load_program_layout (p : list instr) (s : cpu)
  (Hk : Forall known p)
  (Hm : Z.of_nat (length (mem s)) = MEM_SIZE)
  (Hp : Z.of_nat (length p) <= 21845) :
  exists m',
    load_program p s = (Ret tt, set_mem m' s) /\
    length m' = length (mem s) /\
    (forall i ins c, p !! i = Some ins ->
       OPCODES_INV !! upper (fst ins) = Some c ->
       m' !! (3 * i)%nat = Some c /\
       m' !! (3 * i + 1)%nat = Some (arg_of ins mod 256) /\
       m' !! (3 * i + 2)%nat = Some ((arg_of ins / 256) mod 256)) /\
    m' !! (3 * length p)%nat = Some 0xFF /\
    (forall j, (3 * length p < j)%nat -> m' !! j = mem s !! j).
Proof.
  unfold MEM_SIZE in Hm.
  assert (Hfit : (3 * length p < length (mem s))%nat) by lia.
  exists (<[(3 * length p)%nat := 0xFF]> (store_prog p 0 (mem s))).
  split; [now apply load_program_ok|].
  split; [now rewrite length_insert, store_prog_length|].
  split; [|split].
  - intros i ins c Hi Hc.
    assert (Hlt : (i < length p)%nat) by (apply lookup_lt_is_Some; eauto).
    destruct (store_prog_lookup_instr p 0 (mem s) i ins Hi) as (H0 & H1 & H2);
      [lia|].
    cbn [Nat.add] in H0, H1, H2.
    rewrite !list_lookup_insert_ne by lia.
    rewrite H0, H1, H2. unfold opcode_byte. rewrite Hc. cbn [default].
    rewrite !land_FF, Z.shiftr_div_pow2 by lia. auto.
  - apply list_lookup_insert_eq. rewrite store_prog_length. lia.
  - intros j Hj. rewrite list_lookup_insert_ne by lia.
    apply store_prog_lookup_ge. lia.
Qed.

Lemma load_program_layout_witness :
  Forall known (add_program 7 5) /\
  Z.of_nat (length (mem init)) = MEM_SIZE /\
  Z.of_nat (length (add_program 7 5)) <= 21845 /\
  exists m',
    load_program (add_program 7 5) init = (Ret tt, set_mem m' init) /\
    m' !! 0%nat = Some 1 /\ m' !! 1%nat = Some 7 /\ m' !! 2%nat = Some 0 /\
    m' !! 15%nat = Some 0xFF.
Proof.
  assert (Hk : Forall known (add_program 7 5)).
  { repeat apply Forall_cons_2; try apply Forall_nil_2;
      unfold known; vm_compute; eauto. }
  assert (Hm : Z.of_nat (length (mem init)) = MEM_SIZE).
  { cbn [mem init]. rewrite length_replicate. unfold MEM_SIZE. lia. }
  assert (Hp : Z.of_nat (length (add_program 7 5)) <= 21845) by (cbn; lia).
  split; [exact Hk|]. split; [exact Hm|]. split; [exact Hp|].
  destruct (load_program_layout (add_program 7 5) init Hk Hm Hp)
    as (m' & Hl & _ & Hi & Hh & _).
  exists m'. split; [exact Hl|].
  destruct (Hi 0%nat ("LDA", Some 7) 1) as (H0 & H1 & H2);
    [reflexivity|vm_compute; reflexivity|].
  auto.
Defined.

(** C6, as stated, fails for the loader: its write address is not reduced
    modulo 65536, and a program of 30000 instructions makes it subscript the
    memory out of range, which raises [IndexError]. *)
Lemma loader_address_out_of_range :
  let p := replicate (Z.to_nat 30000) ("LDA", Some 1) in
  Forall known p /\
  exists s', load_program p init = (Raise IndexError, s').
Proof.
  intros p.
  assert (Hk : Forall known p)
    by (apply Forall_replicate, (known_mnemonic LDA)).
  split; [exact Hk|].
  apply load_program_overflow; [exact Hk|].
  unfold p. rewrite length_replicate_big. cbn [mem init].
  rewrite length_replicate. unfold MEM_SIZE. lia.
Qed.

(** C6, amended.  The engine's addresses wrap modulo 65536 and stay inside
    the memory.  From a well-formed state a step reads the opcode at [PC]
    and the operand bytes at [(PC+1) mod 65536] and [(PC+2) mod 65536]; the
    operand is a 16-bit value, so the cell LDA_MEM reads and STA writes
    exists; the instruction acts with [PC] at [(PC+1) mod 65536], or at
    [(PC+3) mod 65536] when it has an operand, and a jump sets [PC] to the
    operand modulo 65536; no step raises [IndexError], and the state stays
    well-formed.  The loader's addresses do not wrap: on a 65536-cell memory
    [load_program] returns for a program of known instructions exactly when
    it has at most 21845 of them, and raises [IndexError] when it has
    more. *)
Theorem addressing_in_range (s : cpu) (p : list instr)
  (W : wf s) (Hk : Forall known p) :
  (let operand :=
     cell s ((PC s + 1) mod 65536) + 256 * cell s ((PC s + 2) mod 65536) in
   fst (step s) <> Raise IndexError /\ wf (snd (step s)) /\
   0 <= operand < 65536 /\
   (forall m, cell s (PC s) = spec_opcode m ->
      step s
      = (Ret tt,
         spec_act m operand
           (set_PC ((PC s + (if spec_has_operand m then 3 else 1)) mod 65536)
              s))) /\
   ((forall m, cell s (PC s) <> spec_opcode m) ->
      PC (snd (step s)) = (PC s + 1) mod 65536)) /\
  (Z.of_nat (length p) <= 21845 -> fst (load_program p s) = Ret tt) /\
  (21845 < Z.of_nat (length p) -> fst (load_program p s) = Raise IndexError).
Proof.
  assert (Hl := wf_len s W). unfold MEM_SIZE in Hl.
  assert (E2 : ((PC s + 1) mod 65536 + 1) mod 65536 = (PC s + 2) mod 65536).
  { rewrite Zplus_mod_idemp_l. f_equal. lia. }
  assert (E3 : ((PC s + 1) mod 65536 + 2) mod 65536 = (PC s + 3) mod 65536).
  { rewrite Zplus_mod_idemp_l. f_equal. lia. }
  assert (Ho := operand_at_range s ((PC s + 1) mod 65536) W).
  unfold operand_at in Ho. rewrite E2 in Ho.
  split; [|split].
  - cbn zeta. split; [|split; [|split; [|split]]].
    + destruct (opcode_cases (cell s (PC s))) as [[m Hm]|Hn].
      * rewrite (step_known s m W Hm). discriminate.
      * rewrite (step_unknown s W Hn). discriminate.
    + now apply step_wf.
    + apply Ho. apply Z.mod_pos_bound. lia.
    + intros m Hm. rewrite (step_known s m W Hm).
      unfold operand_at, after_fetch. rewrite E2, E3.
      now destruct (spec_has_operand m).
    + intros Hn. now rewrite (step_unknown s W Hn).
  - intros Hp. rewrite load_program_ok by (try exact Hk; lia). reflexivity.
  - intros Hp. destruct (load_program_overflow p s Hk) as [s' Hs']; [lia|].
    now rewrite Hs'.
Qed.

(** The witness puts LDB in the last cell and jumps there: the step at
    [PC = 65535] reads its operand from the cells 0 and 1 and leaves
    [PC = 2]. *)
Lemma addressing_in_range_witness :
  let p := [("LDA", Some 2); ("STA", Some 65535); ("JMP", Some 65535)] in
  let s0 := snd (load_program p init) in
  let s := snd (step (snd (step (snd (step s0))))) in
  wf s /\ Forall known p /\
  PC s = 65535 /\ cell s (PC s) = spec_opcode LDB /\
  cell s ((PC s + 1) mod 65536) = 1 /\ cell s ((PC s + 2) mod 65536) = 2 /\
  B s = 0 /\
  fst (step s) = Ret tt /\ B (snd (step s)) = 1 /\ PC (snd (step s)) = 2 /\
  fst (load_program p s) = Ret tt.
Proof.
  intros p s0 s.
  assert (Hk : Forall known p).
  { repeat apply Forall_cons_2; try apply Forall_nil_2;
      unfold known; vm_compute; eauto. }
  assert (W : wf s) by (do 3 apply step_wf; apply wf_load_program, init_wf).
  assert (Hop : cell s (PC s) = spec_opcode LDB) by (vm_compute; reflexivity).
  split; [exact W|]. split; [exact Hk|].
  split; [vm_compute; reflexivity|]. split; [exact Hop|].
  split; [vm_compute; reflexivity|]. split; [vm_compute; reflexivity|].
  split; [vm_compute; reflexivity|].
  destruct (addressing_in_range s p W Hk) as ((_ & _ & _ & H & _) & H2 & _).
  rewrite (H LDB Hop). cbn [fst snd].
  split; [reflexivity|]. split; [vm_compute; reflexivity|].
  split; [vm_compute; reflexivity|].
  apply H2. cbn. lia.
Defined.

(** C9, as stated, fails: when 21846 known instructions come before the
    unknown one, the loader runs out of memory first and raises
    [IndexError], which does not report the mnemonic. *)
Lemma unknown_mnemonic_after_overflow :
  let p := (replicate (Z.to_nat 21846) ("OUT", Some 0)
            ++ [("NOP", Some 0)])%list in
  ~ known ("NOP", Some 0) /\
  exists s', load_program p init = (Raise IndexError, s').
Proof.
  intros p. split.
  - unfold known. vm_compute. intros [c Hc]. discriminate Hc.
  - apply load_program_unknown_overflow.
    + apply Forall_replicate, (known_mnemonic OUT).
    + rewrite length_replicate_big. cbn [mem init].
      rewrite length_replicate. unfold MEM_SIZE. lia.
Qed.

(** C9, amended.  Take a program whose first instruction with an unknown
    mnemonic (an ASCII string whose upper-casing is not in the table) comes
    after the known instructions [p1], on a 65536-cell memory.  When [p1]
    has at most 21845 instructions, [load_program] raises [KeyError] with
    the upper-cased mnemonic; the instructions of [p1] have been written,
    three cells each, and every cell from the first cell of the unknown
    instruction on is unchanged, so neither a byte of that instruction nor
    the closing byte is written; nothing but the memory changes.  When [p1]
    has more than 21845 instructions, [load_program] raises [IndexError]
    before it reaches the unknown mnemonic. *)
Theorem load_program_unknown_mnemonic
  (p1 : list instr) (ins : instr) (p2 : list instr) (s : cpu)
  (Hk : Forall known p1)
  (Ha : is_ascii (fst ins) = true) (Hu : ~ known ins)
  (Hm : Z.of_nat (length (mem s)) = MEM_SIZE) :
  (Z.of_nat (length p1) <= 21845 ->
   exists m',
     load_program (p1 ++ ins :: p2) s
     = (Raise (KeyError (upper (fst ins))), set_mem m' s) /\
     length m' = length (mem s) /\
     (forall i ins' c, p1 !! i = Some ins' ->
        OPCODES_INV !! upper (fst ins') = Some c ->
        m' !! (3 * i)%nat = Some c /\
        m' !! (3 * i + 1)%nat = Some (arg_of ins' mod 256) /\
        m' !! (3 * i + 2)%nat = Some ((arg_of ins' / 256) mod 256)) /\
     (forall j, (3 * length p1 <= j)%nat -> m' !! j = mem s !! j)) /\
  (21845 < Z.of_nat (length p1) ->
   exists s', load_program (p1 ++ ins :: p2) s = (Raise IndexError, s')).
Proof.
  unfold MEM_SIZE in Hm. split.
  - intros Hp. exists (store_prog p1 0 (mem s)).
    split; [apply load_program_unknown; auto; lia|].
    split; [apply store_prog_length|]. split.
    + intros i ins' c Hi Hc.
      destruct (store_prog_lookup_instr p1 0 (mem s) i ins' Hi)
        as (H0 & H1 & H2); [lia|].
      cbn [Nat.add] in H0, H1, H2.
      rewrite H0, H1, H2. unfold opcode_byte. rewrite Hc. cbn [default].
      rewrite !land_FF, Z.shiftr_div_pow2 by lia. auto.
    + intros j Hj. apply store_prog_lookup_ge. lia.
  - intros Hp. apply load_program_unknown_overflow; [exact Hk|lia].
Qed.

Lemma load_program_unknown_mnemonic_witness :
  let p1 := [("LDA", Some 7)] in
  Forall known p1 /\ is_ascii "nop" = true /\ ~ known ("nop", None) /\
  Z.of_nat (length (mem init)) = MEM_SIZE /\
  Z.of_nat (length p1) <= 21845 /\
  exists m',
    load_program (p1 ++ ("nop", None) :: [("HLT", None)]) init
    = (Raise (KeyError "NOP"), set_mem m' init) /\
    m' !! 0%nat = Some 1 /\ m' !! 1%nat = Some 7 /\ m' !! 2%nat = Some 0 /\
    m' !! 3%nat = Some 0 /\ m' !! 6%nat = Some 0.
Proof.
  intros p1.
  assert (Hk : Forall known p1).
  { repeat apply Forall_cons_2; try apply Forall_nil_2;
      unfold known; vm_compute; eauto. }
  assert (Hu : ~ known ("nop", None)).
  { unfold known. vm_compute. intros [c Hc]. discriminate Hc. }
  assert (Hm : Z.of_nat (length (mem init)) = MEM_SIZE).
  { cbn [mem init]. rewrite length_replicate. unfold MEM_SIZE. lia. }
  assert (Hp : Z.of_nat (length p1) <= 21845) by (cbn; lia).
  split; [exact Hk|]. split; [reflexivity|]. split; [exact Hu|].
  split; [exact Hm|]. split; [exact Hp|].
  destruct (load_program_unknown_mnemonic p1 ("nop", None)
              [("HLT", None)] init Hk eq_refl Hu Hm) as [H _].
  destruct (H Hp) as (m' & Hl & _ & Hi & Ht).
  exists m'. split; [exact Hl|].
  destruct (Hi 0%nat ("LDA", Some 7) 1) as (H0 & H1 & H2);
    [reflexivity|vm_compute; reflexivity|].
  split; [exact H0|]. split; [exact H1|]. split; [exact H2|].
  split; [rewrite (Ht 3%nat) by (cbn; lia)|rewrite (Ht 6%nat) by (cbn; lia)];
    apply lookup_replicate_2; unfold MEM_SIZE; lia.
Defined.

(** ** Case of the mnemonics *)

Lemma upper_ascii_of_upper c :
  (65 <= N_of_ascii c <= 90)%N -> upper_ascii c = c.
Proof.
  intros H. unfold upper_ascii.
  destruct (N.leb_spec 97 (N_of_ascii c)); [lia|reflexivity].
Qed.

Lemma upper_ascii_of_lower c c' :
  (65 <= N_of_ascii c <= 90)%N -> N_of_ascii c' = (N_of_ascii c + 32)%N ->
  upper_ascii c' = c.
Proof.
  intros H E. unfold upper_ascii. rewrite E.
  destruct (N.leb_spec 97 (N_of_ascii c + 32)); [|lia].
  destruct (N.leb_spec (N_of_ascii c + 32) 122); [|lia].
  cbn [andb]. replace (N_of_ascii c + 32 - 32)%N with (N_of_ascii c) by lia.
  apply ascii_N_embedding.
Qed.

Lemma upper_ascii_same_letter c c' :
  same_letter c c' -> upper_ascii c = upper_ascii c'.
Proof.
  intros [->|[[H E]|[H E]]]; [reflexivity| |].
  - now rewrite (upper_ascii_of_upper c H), (upper_ascii_of_lower c c' H E).
  - now rewrite (upper_ascii_of_upper c' H), (upper_ascii_of_lower c' c H E).
Qed.

Lemma upper_case_variant a b : case_variant a b -> upper a = upper b.
Proof.
  induction 1 as [|c c' t t' Hc _ IH]; [reflexivity|].
  cbn [upper]. now rewrite (upper_ascii_same_letter c c' Hc), IH.
Qed.

Lemma load_loop_case_insensitive p p' :
  Forall2 instr_variant p p' ->
  forall addr s, load_loop p addr s = load_loop p' addr s.
Proof.
  induction 1 as [|[n a] [n' a'] p p' [Hn Ha] _ IH]; intros addr s;
    [reflexivity|].
  cbn [fst snd] in Hn, Ha. subst a'. cbn [load_loop fst snd].
  rewrite (upper_case_variant n n' Hn).
  apply bind_ext. intros c s0.
  apply bind_ext. intros _ s1.
  apply bind_ext. intros _ s2.
  apply bind_ext. intros _ s3.
  apply IH.
Qed.

(** C10.  The loader is case-insensitive in the mnemonics: two programs
    whose instructions agree up to the case of the letters of the mnemonics
    make [load_program] do the same from every state, memory contents,
    result and failure included. *)
Theorem load_program_case_insensitive (p p' : list instr) (s : cpu)
  (H : Forall2 instr_variant p p') :
  load_program p s = load_program p' s.
Proof.
  unfold load_program, bind.
  now rewrite (load_loop_case_insensitive p p' H 0 s).
Qed.

Lemma load_program_case_insensitive_witness :
  Forall2 instr_variant
    [("lda", Some 7); ("Hlt", None)] [("LDA", Some 7); ("HLT", None)] /\
  load_program [("lda", Some 7); ("Hlt", None)] init
  = load_program [("LDA", Some 7); ("HLT", None)] init.
Proof.
  assert (Hlow : forall c c' : ascii,
             (65 <=? N_of_ascii c')%N && (N_of_ascii c' <=? 90)%N
             && (N_of_ascii c =? N_of_ascii c' + 32)%N = true ->
             same_letter c c').
  { intros c c' E. apply andb_true_iff in E as [E E3].
    apply andb_true_iff in E as [E1 E2].
    apply N.leb_le in E1. apply N.leb_le in E2. apply N.eqb_eq in E3.
    right. right. auto. }
  assert (Hv : Forall2 instr_variant
                 [("lda", Some 7); ("Hlt", None)]
                 [("LDA", Some 7); ("HLT", None)]).
  { repeat first [ apply Forall2_nil_2 | apply Forall2_cons_2
                   | apply case_variant_nil | apply case_variant_cons
                   | apply conj ];
      cbn [fst snd];
      first [ reflexivity | left; reflexivity | apply Hlow; reflexivity ]. }
  split; [exact Hv|].
  exact (load_program_case_insensitive _ _ init Hv).
Defined.

(** ** The zero flag *)

Lemma step_flag s m :
  wf s -> cell s (PC s) = spec_opcode m ->
  let s' := snd (step s) in
  match written s s' with
  | Some v => ZF s' = (v =? 0)
  | None => ZF s' = ZF s /\ m ∈ [STA; JMP; JZ; OUT; HLT]
  end.
Proof.
  intros W Hop. rewrite (step_known s m W Hop). cbn [snd].
  unfold written. rewrite Hop.
  destruct m; cbn; try reflexivity;
    (split; [try reflexivity|elem_of_list]).
  destruct (ZF s) eqn:E; cbn; exact E.
Qed.

Lemma tracking_invariant n : forall s last0 last s',
  wf s -> (ZF s = true <-> last0 = Some 0) ->
  steps_tracking n last0 s = (Ret last, s') ->
  wf s' /\ (ZF s' = true <-> last = Some 0).
Proof.
  induction n as [|n IH]; intros s last0 last s' W Hz Hrun.
  - cbn in Hrun. injection Hrun as <- <-. auto.
  - cbn [steps_tracking] in Hrun.
    destruct (opcode_cases (cell s (PC s))) as [[m Hm]|Hn].
    + assert (Hf := step_flag s m W Hm). assert (W1 := step_wf s W).
      cbn zeta in Hf.
      destruct (step s) as [[[]|e] s1]; [|discriminate Hrun].
      cbn [snd] in Hf, W1.
      apply (IH _ _ _ _ W1) in Hrun; [exact Hrun|].
      destruct (written s s1) as [v|].
      * rewrite Hf. rewrite Z.eqb_eq. split; [now intros ->|now intros [= ->]].
      * destruct Hf as [-> _]. exact Hz.
    + rewrite (step_unknown s W Hn) in Hrun. discriminate Hrun.
Qed.

(** C7.  After any number of steps from an initial state (well-formed,
    [Z] false, no register written yet), [Z] is true exactly when a
    data-producing instruction has written a register and the most recent
    value so written was zero; and a step that executes STA, JMP, JZ, OUT or
    HLT leaves [Z] as it was. *)
Theorem zero_flag_tracks_last_write
  (n : nat) (s s' : cpu) (last : option Z)
  (W : wf s) (Hz : ZF s = false)
  (Hrun : steps_tracking n None s = (Ret last, s')) :
  (ZF s' = true <-> last = Some 0) /\
  (forall m, cell s' (PC s') = spec_opcode m ->
             m ∈ [STA; JMP; JZ; OUT; HLT] ->
             ZF (snd (step s')) = ZF s').
Proof.
  destruct (tracking_invariant n s None last s' W) as [W' Hflag];
    [rewrite Hz; split; discriminate|exact Hrun|].
  split; [exact Hflag|].
  intros m Hm Hin. rewrite (step_known s' m W' Hm). cbn [snd].
  destruct m; elem_of_cases Hin; try reflexivity.
  cbn. destruct (ZF s') eqn:E; cbn; exact E.
Qed.

Lemma zero_flag_tracks_last_write_witness :
  let s := snd (load_program [("LDA", Some 0); ("STA", Some 100)] init) in
  let r := steps_tracking 1 None s in
  wf s /\ ZF s = false /\ r = (Ret (Some 0), snd r) /\
  (ZF (snd r) = true <-> Some 0 = Some 0) /\
  ZF (snd (step (snd r))) = ZF (snd r).
Proof.
  intros s r.
  assert (W : wf s) by apply wf_load_program, init_wf.
  assert (Hz : ZF s = false) by (vm_compute; reflexivity).
  assert (Hr : fst r = Ret (Some 0)) by (vm_compute; reflexivity).
  assert (Hrun : r = (Ret (Some 0), snd r)).
  { rewrite <- Hr. now destruct r. }
  split; [exact W|]. split; [exact Hz|]. split; [exact Hrun|].
  destruct (zero_flag_tracks_last_write 1 s (snd r) (Some 0) W Hz Hrun)
    as [H1 H2].
  split; [exact H1|].
  apply (H2 STA).
  - vm_compute. reflexivity.
  - elem_of_list.
Defined.

(** * Further properties of the emulator *)

(** ** The table and its inverse *)

(** X1.  [OPCODES_INV] is the inverse of [OPCODES]: a name is mapped to a
    byte exactly when the table maps that byte to the name. *)
Theorem opcode_table_inverse (key : string) (c : Z) :
  OPCODES_INV !! key = Some c <-> (c, key) ∈ OPCODES.
Proof.
  split.
  - intros H. destruct (OPCODES_INV_Some key c H) as (m & -> & ->).
    unfold OPCODES. destruct m; cbn [spec_name spec_opcode]; elem_of_list.
  - intros H. unfold OPCODES in H.
    repeat (apply elem_of_cons in H as [H|H];
            [injection H as -> ->; vm_compute; reflexivity|]).
    apply elem_of_nil in H. destruct H.
Qed.

(** ** Invariants of a run *)

Lemma run_loop_invariant (P : cpu -> Prop) :
  (forall s, P s -> P (snd (step s))) ->
  forall fuel max_steps steps s,
    P s -> P (snd (run_loop fuel max_steps steps s)).
Proof.
  intros Hstep. induction fuel as [|fuel IH]; intros max_steps steps s Hs.
  - cbn [run_loop]. rewrite bind_gets.
    now destruct (running s && (steps <? max_steps)).
  - cbn [run_loop]. rewrite bind_gets.
    destruct (running s && (steps <? max_steps)); [|exact Hs].
    unfold bind. specialize (Hstep s Hs).
    destruct (step s) as [[[]|e] s1]; cbn [snd] in *; [|exact Hstep].
    now apply IH.
Qed.

Lemma run_invariant (P : cpu -> Prop) :
  (forall s, P s -> P (snd (step s))) ->
  forall max_steps s, P s -> P (snd (run max_steps s)).
Proof.
  intros Hstep max_steps s Hs. unfold run, bind.
  assert (H := run_loop_invariant P Hstep (Z.to_nat max_steps) max_steps 0 s Hs).
  destruct (run_loop (Z.to_nat max_steps) max_steps 0 s) as [[[n|]|e] s'];
    cbn [snd] in *; try exact H.
  now destruct (n >=? max_steps).
Qed.

(** X2.  Whatever the budget and the outcome, [run] leaves a well-formed
    machine well-formed: 65536 byte cells, [A] and [B] in [0, 255], [PC] in
    [0, 65535]. *)
Theorem run_wf (max_steps : Z) (s : cpu) (W : wf s) :
  wf (snd (run max_steps s)).
Proof. apply run_invariant; [apply step_wf|exact W]. Qed.

Lemma run_wf_witness : wf init /\ wf (snd (run 3 init)).
Proof. split; [exact init_wf|exact (run_wf 3 init init_wf)]. Defined.

Lemma step_output s :
  wf s -> exists k, output (snd (step s)) = (output s ++ k)%list.
Proof.
  intros W. destruct (opcode_cases (cell s (PC s))) as [[m Hm]|Hn].
  - rewrite (step_known s m W Hm). cbn [snd].
    destruct m; cbn; try (exists []; now rewrite app_nil_r).
    + destruct (ZF s); exists []; now rewrite app_nil_r.
    + now exists [A s].
  - rewrite (step_unknown s W Hn). exists []. cbn. now rewrite app_nil_r.
Qed.

(** X3.  The output is append-only: after [run], whatever its outcome, the
    output is the output before it followed by what the run emitted. *)
Theorem run_output_append_only (max_steps : Z) (s : cpu) (W : wf s) :
  exists k, output (snd (run max_steps s)) = (output s ++ k)%list.
Proof.
  apply (run_invariant
           (fun s' => wf s' /\ exists k, output s' = (output s ++ k)%list)).
  - intros s1 [W1 [k Hk]]. split; [now apply step_wf|].
    destruct (step_output s1 W1) as [k' Hk'].
    exists (k ++ k')%list. now rewrite Hk', Hk, app_assoc.
  - split; [exact W|]. exists []. now rewrite app_nil_r.
Qed.

(** The witness starts after an LDA 65 and a first OUT, with [65] in the
    output, and runs two more OUT and the HLT. *)
Lemma run_output_append_only_witness :
  let s0 := snd (load_program [("LDA", Some 65); ("OUT", Some 2313)] init) in
  let s := snd (step (snd (step s0))) in
  wf s /\ output s = [65] /\
  fst (run 10 s) = Ret (Some tt) /\
  output (snd (run 10 s)) = [65; 65; 65] /\
  exists k, output (snd (run 10 s)) = (output s ++ k)%list.
Proof.
  intros s0 s.
  assert (W : wf s) by (do 2 apply step_wf; apply wf_load_program, init_wf).
  split; [exact W|]. split; [vm_compute; reflexivity|].
  split; [vm_compute; reflexivity|]. split; [vm_compute; reflexivity|].
  exact (run_output_append_only 10 s W).
Defined.

Lemma step_running s :
  wf s -> running s = false -> running (snd (step s)) = false.
Proof.
  intros W Hr. destruct (opcode_cases (cell s (PC s))) as [[m Hm]|Hn].
  - rewrite (step_known s m W Hm). cbn [snd].
    destruct m; cbn; try exact Hr; try reflexivity.
    now destruct (ZF s).
  - now rewrite (step_unknown s W Hn).
Qed.

(** X4.  Halting is permanent: no instruction sets [running] again, so a
    step made on a halted machine, and any [run] of it, leave it halted. *)
Theorem halted_stays_halted (max_steps : Z) (s : cpu)
  (W : wf s) (Hr : running s = false) :
  running (snd (step s)) = false /\ running (snd (run max_steps s)) = false.
Proof.
  split; [now apply step_running|].
  apply (run_invariant (fun s' => wf s' /\ running s' = false)).
  - intros s1 [W1 H1]. split; [now apply step_wf|now apply step_running].
  - now split.
Qed.

Lemma halted_stays_halted_witness :
  let s := set_running false init in
  wf s /\ running s = false /\
  running (snd (step s)) = false /\ running (snd (run 7 s)) = false.
Proof.
  intros s.
  assert (W : wf s) by (destruct init_wf; now constructor).
  split; [exact W|]. split; [reflexivity|].
  exact (halted_stays_halted 7 s W eq_refl).
Defined.

(** ** Edge cases of [run] *)

(** X5.  With a budget of zero or less [run] executes no step and raises
    the step-budget failure at once, on a running and on a halted machine
    alike. *)
Theorem run_without_budget (max_steps : Z) (s : cpu) (Hb : max_steps <= 0) :
  run max_steps s = (Raise (RuntimeError max_steps_msg), s).
Proof.
  unfold run, bind. rewrite run_loop_stop.
  - destruct (Z.geb_spec 0 max_steps); [reflexivity|lia].
  - destruct (Z.ltb_spec 0 max_steps); [lia|apply andb_false_r].
Qed.

Lemma run_without_budget_witness :
  0 <= 0 /\ run 0 init = (Raise (RuntimeError max_steps_msg), init).
Proof. split; [lia|apply run_without_budget; lia]. Defined.

(** X6.  On a halted machine [run] with a positive budget executes no step
    and returns, leaving the state as it is. *)
Theorem run_halted (max_steps : Z) (s : cpu)
  (Hr : running s = false) (Hb : 0 < max_steps) :
  run max_steps s = (Ret (Some tt), s).
Proof.
  unfold run, bind. rewrite run_loop_stop by now rewrite Hr.
  destruct (Z.geb_spec 0 max_steps); [lia|reflexivity].
Qed.

Lemma run_halted_witness :
  running (set_running false init) = false /\ 0 < 10 /\
  run 10 (set_running false init) = (Ret (Some tt), set_running false init).
Proof.
  split; [reflexivity|]. split; [lia|].
  apply run_halted; [reflexivity|lia].
Defined.

Lemma run_loop_exit fuel : forall max_steps steps s n s',
  run_loop fuel max_steps steps s = (Ret (Some n), s') ->
  running s' && (n <? max_steps) = false.
Proof.
  induction fuel as [|fuel IH]; intros max_steps steps s n s' H.
  - cbn [run_loop] in H. rewrite bind_gets in H.
    destruct (running s && (steps <? max_steps)) eqn:E; [discriminate H|].
    injection H as <- <-. exact E.
  - cbn [run_loop] in H. rewrite bind_gets in H.
    destruct (running s && (steps <? max_steps)) eqn:E.
    + unfold bind in H. destruct (step s) as [[[]|e] s1]; [|discriminate H].
      eapply IH, H.
    + injection H as <- <-. exact E.
Qed.

(** X7.  A run that returns normally has halted the machine: [run] never
    returns while the engine is still running. *)
Theorem run_returns_halted (max_steps : Z) (s s' : cpu)
  (H : run max_steps s = (Ret (Some tt), s')) :
  running s' = false.
Proof.
  unfold run, bind in H.
  destruct (run_loop (Z.to_nat max_steps) max_steps 0 s)
    as [[[n|]|e] s1] eqn:E; try discriminate H.
  apply run_loop_exit in E.
  destruct (Z.geb_spec n max_steps) as [Hge|Hlt]; [discriminate H|].
  injection H as <-.
  destruct (Z.ltb_spec n max_steps); [|lia].
  now rewrite andb_true_r in E.
Qed.

Lemma run_returns_halted_witness :
  let s := snd (load_program [("HLT", Some 0)] init) in
  run 2 s = (Ret (Some tt), snd (run 2 s)) /\ running (snd (run 2 s)) = false.
Proof.
  intros s.
  assert (Hf : fst (run 2 s) = Ret (Some tt)) by (vm_compute; reflexivity).
  assert (H : run 2 s = (Ret (Some tt), snd (run 2 s))).
  { rewrite <- Hf. now destruct (run 2 s). }
  split; [exact H|exact (run_returns_halted 2 s _ H)].
Defined.

Lemma step_raises s e :
  wf s -> fst (step s) = Raise e -> exists msg, e = RuntimeError msg.
Proof.
  intros W. destruct (opcode_cases (cell s (PC s))) as [[m Hm]|Hn].
  - rewrite (step_known s m W Hm). discriminate.
  - rewrite (step_unknown s W Hn). intros [= <-]. eauto.
Qed.

Lemma run_loop_raises fuel : forall max_steps steps s e,
  wf s -> fst (run_loop fuel max_steps steps s) = Raise e ->
  exists msg, e = RuntimeError msg.
Proof.
  induction fuel as [|fuel IH]; intros max_steps steps s e W H.
  - cbn [run_loop] in H. rewrite bind_gets in H.
    destruct (running s && (steps <? max_steps)); discriminate H.
  - cbn [run_loop] in H. rewrite bind_gets in H.
    destruct (running s && (steps <? max_steps)); [|discriminate H].
    unfold bind in H. assert (Hs := step_raises s). assert (W1 := step_wf s W).
    destruct (step s) as [[[]|e1] s1]; cbn [fst snd] in *.
    + eapply IH; eauto.
    + injection H as <-. now apply Hs.
Qed.

(** X8.  From a well-formed machine [run] raises nothing but
    [RuntimeError]: no subscript of the engine goes out of range and no
    table lookup fails. *)
Theorem run_raises_runtime_error_only (max_steps : Z) (s : cpu) (e : exn)
  (W : wf s) (H : fst (run max_steps s) = Raise e) :
  exists msg, e = RuntimeError msg.
Proof.
  unfold run, bind in H.
  assert (Hl := run_loop_raises (Z.to_nat max_steps) max_steps 0 s).
  destruct (run_loop (Z.to_nat max_steps) max_steps 0 s)
    as [[[n|]|e1] s1]; cbn [fst] in *.
  - destruct (n >=? max_steps); [|discriminate H].
    injection H as <-. eauto.
  - discriminate H.
  - injection H as <-. now apply Hl.
Qed.

Lemma run_raises_runtime_error_only_witness :
  wf init /\
  fst (run 4 init) = Raise (RuntimeError "Unknown opcode 0 at PC 0000") /\
  exists msg, RuntimeError "Unknown opcode 0 at PC 0000" = RuntimeError msg.
Proof.
  assert (H : fst (run 4 init)
              = Raise (RuntimeError "Unknown opcode 0 at PC 0000"))
    by (vm_compute; reflexivity).
  split; [exact init_wf|]. split; [exact H|].
  exact (run_raises_runtime_error_only 4 init _ init_wf H).
Defined.

(** X9.  A decode failure ends the run on the spot: when a running machine
    with a positive budget has a byte that is no opcode at [PC], [run]
    raises the decode failure of that byte, and the only change to the
    machine is that [PC] has moved one cell on. *)
Theorem run_decode_failure (max_steps : Z) (s : cpu)
  (W : wf s) (Hr : running s = true) (Hb : 0 < max_steps)
  (Hn : forall m, cell s (PC s) <> spec_opcode m) :
  run max_steps s
  = (Raise (RuntimeError
              (unknown_opcode_msg (cell s (PC s)) ((PC s + 1) mod 65536 - 1))),
     set_PC ((PC s + 1) mod 65536) s).
Proof.
  unfold run. destruct (Z.to_nat max_steps) as [|fuel] eqn:E; [lia|].
  unfold bind at 1. rewrite run_loop_go by (auto; lia).
  unfold bind. now rewrite (step_unknown s W Hn).
Qed.

Lemma run_decode_failure_witness :
  wf init /\ running init = true /\ 0 < 100 /\
  (forall m, cell init (PC init) <> spec_opcode m) /\
  fst (run 100 init) = Raise (RuntimeError (unknown_opcode_msg 0 0)).
Proof.
  assert (Hn : forall m, cell init (PC init) <> spec_opcode m).
  { intros m. change (cell init (PC init)) with 0.
    destruct m; discriminate. }
  split; [exact init_wf|]. split; [reflexivity|]. split; [lia|].
  split; [exact Hn|].
  rewrite (run_decode_failure 100 init init_wf eq_refl) by (lia || exact Hn).
  reflexivity.
Defined.

(** X10.  When a running machine has [HLT] at [PC] and the budget is at
    least two, [run] executes that one step and returns: the machine is
    halted, [PC] is one cell on, and registers, flag, memory and output are
    as before. *)
Theorem run_halt_instruction (max_steps : Z) (s : cpu)
  (W : wf s) (Hr : running s = true) (Hb : 1 < max_steps)
  (Hop : cell s (PC s) = spec_opcode HLT) :
  run max_steps s
  = (Ret (Some tt), set_running false (set_PC ((PC s + 1) mod 65536) s)).
Proof.
  unfold run. destruct (Z.to_nat max_steps) as [|fuel] eqn:E; [lia|].
  unfold bind at 1. rewrite run_loop_go by (auto; lia).
  unfold bind at 1. rewrite (step_known s HLT W Hop).
  cbn [spec_act after_fetch spec_has_operand].
  rewrite run_loop_stop by reflexivity.
  destruct (Z.geb_spec (0 + 1) max_steps); [lia|reflexivity].
Qed.

Lemma run_halt_instruction_witness :
  let s := snd (load_program [] init) in
  wf s /\ running s = true /\ 1 < DEFAULT_MAX_STEPS /\
  cell s (PC s) = spec_opcode HLT /\
  fst (run DEFAULT_MAX_STEPS s) = Ret (Some tt).
Proof.
  intros s.
  assert (W : wf s) by apply wf_load_program, init_wf.
  assert (Hr : running s = true) by (vm_compute; reflexivity).
  assert (Hop : cell s (PC s) = spec_opcode HLT) by (vm_compute; reflexivity).
  assert (Hb : 1 < DEFAULT_MAX_STEPS) by (unfold DEFAULT_MAX_STEPS; lia).
  split; [exact W|]. split; [exact Hr|]. split; [exact Hb|].
  split; [exact Hop|].
  now rewrite (run_halt_instruction DEFAULT_MAX_STEPS s W Hr Hb Hop).
Defined.

Lemma run_loop_shift fuel : forall max_steps k s,
  run_loop fuel max_steps (k + 1) s
  = (match fst (run_loop fuel (max_steps - 1) k s) with
     | Ret (Some n) => Ret (Some (n + 1))
     | o => o
     end,
     snd (run_loop fuel (max_steps - 1) k s)).
Proof.
  induction fuel as [|fuel IH]; intros max_steps k s.
  - cbn [run_loop]. rewrite !bind_gets.
    replace (k + 1 <? max_steps) with (k <? max_steps - 1)
      by (destruct (Z.ltb_spec k (max_steps - 1));
          destruct (Z.ltb_spec (k + 1) max_steps); reflexivity || lia).
    now destruct (running s && (k <? max_steps - 1)).
  - cbn [run_loop]. rewrite !bind_gets.
    replace (k + 1 <? max_steps) with (k <? max_steps - 1)
      by (destruct (Z.ltb_spec k (max_steps - 1));
          destruct (Z.ltb_spec (k + 1) max_steps); reflexivity || lia).
    destruct (running s && (k <? max_steps - 1)); [|reflexivity].
    unfold bind. destruct (step s) as [[[]|e] s1]; [|reflexivity].
    apply IH.
Qed.

(** X11.  One step of budget is one step of the engine: when a running
    machine with a positive budget makes a step that returns, the rest of
    the run is the run of the next state with the budget less one, same
    outcome and same final state. *)
Theorem run_after_step (max_steps : Z) (s s1 : cpu)
  (Hr : running s = true) (Hb : 0 < max_steps)
  (Hs : step s = (Ret tt, s1)) :
  run max_steps s = run (max_steps - 1) s1.
Proof.
  unfold run.
  replace (Z.to_nat max_steps) with (S (Z.to_nat (max_steps - 1))) by lia.
  unfold bind. rewrite run_loop_go by (auto; lia).
  unfold bind. rewrite Hs.
  rewrite (run_loop_shift (Z.to_nat (max_steps - 1)) max_steps 0 s1).
  destruct (run_loop (Z.to_nat (max_steps - 1)) (max_steps - 1) 0 s1)
    as [[[n|]|e] s2]; cbn [fst snd]; try reflexivity.
  replace (n + 1 >=? max_steps) with (n >=? max_steps - 1)
    by (destruct (Z.geb_spec n (max_steps - 1));
        destruct (Z.geb_spec (n + 1) max_steps); reflexivity || lia).
  reflexivity.
Qed.

Lemma run_after_step_witness :
  let s := snd (load_program [("LDA", Some 3); ("HLT", None)] init) in
  running s = true /\ 0 < 5 /\ step s = (Ret tt, snd (step s)) /\
  run 5 s = run 4 (snd (step s)).
Proof.
  intros s.
  assert (Hr : running s = true) by (vm_compute; reflexivity).
  assert (Hf : fst (step s) = Ret tt) by (vm_compute; reflexivity).
  assert (Hs : step s = (Ret tt, snd (step s))).
  { rewrite <- Hf. now destruct (step s). }
  assert (Hb : 0 < 5) by lia.
  split; [exact Hr|]. split; [exact Hb|]. split; [exact Hs|].
  exact (run_after_step 5 s _ Hr Hb Hs).
Defined.

(** ** The loader and the engine together *)

Lemma bind_invariant {T U} (P : cpu -> Prop) (m : M T) (k : T -> M U) s :
  P (snd (m s)) -> (forall x s', P s' -> P (snd (k x s'))) ->
  P (snd (bind m k s)).
Proof.
  intros Hm Hk. unfold bind. destruct (m s) as [[x|e] s']; cbn in *; auto.
Qed.

Lemma mem_put_frame s0 i v s :
  same_registers s0 s /\ length (mem s) = length (mem s0) ->
  same_registers s0 (snd (mem_put i v s)) /\
  length (mem (snd (mem_put i v s))) = length (mem s0).
Proof.
  intros [H L]. unfold mem_put. destruct (list_index (mem s) i); [|now split].
  cbn. now rewrite length_insert.
Qed.

Lemma load_loop_frame s0 p : forall addr s,
  same_registers s0 s /\ length (mem s) = length (mem s0) ->
  same_registers s0 (snd (load_loop p addr s)) /\
  length (mem (snd (load_loop p addr s))) = length (mem s0).
Proof.
  induction p as [|ins rest IH]; intros addr s H; [exact H|].
  cbn [load_loop]. unfold opcodes_inv.
  destruct (OPCODES_INV !! upper ins.1) as [c|]; [|exact H].
  rewrite !bind_ret.
  apply (bind_invariant (fun s' => same_registers s0 s' /\
                                   length (mem s') = length (mem s0)));
    [now apply mem_put_frame|]. intros _ s1 H1.
  apply (bind_invariant (fun s' => same_registers s0 s' /\
                                   length (mem s') = length (mem s0)));
    [now apply mem_put_frame|]. intros _ s2 H2.
  apply (bind_invariant (fun s' => same_registers s0 s' /\
                                   length (mem s') = length (mem s0)));
    [now apply mem_put_frame|]. intros _ s3 H3.
  now apply IH.
Qed.

(** X12.  Whatever the program, and whether it returns or raises,
    [load_program] changes nothing but the contents of memory cells: the
    registers, the flags, the output and the number of cells stay. *)
Theorem load_program_changes_memory_only (p : list instr) (s : cpu) :
  same_registers s (snd (load_program p s)) /\
  length (mem (snd (load_program p s))) = length (mem s).
Proof.
  unfold load_program.
  apply (bind_invariant (fun s' => same_registers s s' /\
                                   length (mem s') = length (mem s))).
  - apply load_loop_frame. unfold same_registers. tauto.
  - intros addr s1 H1.
    change (opcodes_inv "HLT") with (opcodes_inv (spec_name HLT)).
    rewrite opcodes_inv_spec, bind_ret. now apply mem_put_frame.
Qed.

(** The three cells of instruction [i] of a loaded program. *)
Lemma loaded_instr p s i ins c :
  Forall known p ->
  Z.of_nat (length (mem s)) = MEM_SIZE ->
  Z.of_nat (length p) <= 21845 ->
  p !! i = Some ins ->
  OPCODES_INV !! upper (fst ins) = Some c ->
  let s' := snd (load_program p s) in
  cell s' (3 * Z.of_nat i) = c /\
  cell s' (3 * Z.of_nat i + 1) = arg_of ins mod 256 /\
  cell s' (3 * Z.of_nat i + 2) = (arg_of ins / 256) mod 256.
Proof.
  intros Hk Hm Hp Hi Hc. unfold MEM_SIZE in Hm.
  rewrite load_program_ok by (try exact Hk; lia). cbn [snd].
  assert (Hlt : (i < length p)%nat) by (apply lookup_lt_is_Some; eauto).
  destruct (store_prog_lookup_instr p 0 (mem s) i ins Hi) as (H0 & H1 & H2);
    [lia|].
  cbn [Nat.add] in H0, H1, H2.
  unfold cell. cbn [mem set_mem].
  replace (Z.to_nat (3 * Z.of_nat i)) with (3 * i)%nat by lia.
  replace (Z.to_nat (3 * Z.of_nat i + 1)) with (3 * i + 1)%nat by lia.
  replace (Z.to_nat (3 * Z.of_nat i + 2)) with (3 * i + 2)%nat by lia.
  repeat split; apply list_lookup_total_correct;
    rewrite list_lookup_insert_ne by lia.
  - rewrite H0. unfold opcode_byte. now rewrite Hc.
  - now rewrite H1, land_FF.
  - now rewrite H2, land_FF, Z.shiftr_div_pow2 by lia.
Qed.

Lemma le16_split a : a mod 256 + 256 * ((a / 256) mod 256) = a mod 65536.
Proof. change 65536 with (256 * 256). now rewrite Z.rem_mul_r by lia. Qed.

Lemma fetch_operand_wf s :
  wf s ->
  fetch_operand s
  = (Ret (operand_at s (PC s)), set_PC ((PC s + 2) mod 65536) s).
Proof.
  intros W. transitivity (bind fetch_operand ret s).
  - unfold bind, ret. now destruct (fetch_operand s) as [[v|e] s'].
  - now rewrite (bind_fetch_operand ret s W).
Qed.

(** X13.  The loader's encoding and the engine's operand fetch are inverse
    to each other: the operand that [fetch_operand] reads behind the opcode
    of instruction [i] of a loaded program is the operand given, modulo
    65536 - the operand itself when it is a 16-bit value. *)
Theorem operand_round_trip (p : list instr) (s : cpu) (i : nat) (ins : instr)
  (Hk : Forall known p)
  (W : wf s)
  (Hp : Z.of_nat (length p) <= 21845)
  (Hi : p !! i = Some ins) :
  let s1 := set_PC (3 * Z.of_nat i + 1) (snd (load_program p s)) in
  fst (fetch_operand s1) = Ret (arg_of ins mod 65536) /\
  PC (snd (fetch_operand s1)) = 3 * Z.of_nat i + 3 /\
  (0 <= arg_of ins < 65536 -> fst (fetch_operand s1) = Ret (arg_of ins)).
Proof.
  intros s1.
  assert (Hlt : (i < length p)%nat) by (apply lookup_lt_is_Some; eauto).
  assert (W1 : wf s1).
  { apply wf_set_PC; [apply wf_load_program, W|lia]. }
  destruct (proj1 (Forall_lookup _ _) Hk i ins Hi) as [c Hc].
  destruct (loaded_instr p s i ins c Hk (wf_len s W) Hp Hi Hc)
    as (_ & H1 & H2).
  assert (C1 : cell s1 (3 * Z.of_nat i + 1) = arg_of ins mod 256)
    by exact H1.
  assert (C2 : cell s1 (3 * Z.of_nat i + 2) = (arg_of ins / 256) mod 256)
    by exact H2.
  assert (E : fetch_operand s1
              = (Ret (arg_of ins mod 65536), set_PC (3 * Z.of_nat i + 3) s1)).
  { rewrite (fetch_operand_wf s1 W1).
    change (PC s1) with (3 * Z.of_nat i + 1). unfold operand_at.
    replace ((3 * Z.of_nat i + 1 + 1) mod 65536) with (3 * Z.of_nat i + 2)
      by (rewrite Z.mod_small; lia).
    rewrite C1, C2, le16_split.
    replace ((3 * Z.of_nat i + 1 + 2) mod 65536) with (3 * Z.of_nat i + 3)
      by (rewrite Z.mod_small; lia).
    reflexivity. }
  rewrite E. cbn [fst snd PC set_PC].
  split; [reflexivity|]. split; [reflexivity|].
  intros Hr. now rewrite Z.mod_small by exact Hr.
Qed.

Lemma operand_round_trip_witness :
  let p := [("LDA", Some 7); ("JMP", Some 4660)] in
  Forall known p /\ wf init /\ Z.of_nat (length p) <= 21845 /\
  p !! 1%nat = Some ("JMP", Some 4660) /\
  fst (fetch_operand (set_PC 4 (snd (load_program p init)))) = Ret 4660.
Proof.
  intros p.
  assert (Hk : Forall known p).
  { repeat apply Forall_cons_2; try apply Forall_nil_2;
      unfold known; vm_compute; eauto. }
  assert (Hp : Z.of_nat (length p) <= 21845) by (cbn; lia).
  assert (Hi : p !! 1%nat = Some ("JMP", Some 4660)) by reflexivity.
  split; [exact Hk|]. split; [exact init_wf|]. split; [exact Hp|].
  split; [exact Hi|].
  destruct (operand_round_trip p init 1 _ Hk init_wf Hp Hi) as (_ & _ & H).
  apply H. cbn. lia.
Defined.

(** X14.  The loader and the engine agree on the instructions that take an
    operand: when [PC] is at instruction [i] of a loaded program and that
    instruction is LDA, LDB, LDA_MEM, STA, JMP or JZ, one step performs the
    instruction on the operand given (modulo 65536), with [PC] first moved
    to the next instruction. *)
Theorem step_loaded_operand_instr
  (p : list instr) (s : cpu) (i : nat) (ins : instr) (m : mnemonic)
  (Hk : Forall known p)
  (W : wf s)
  (Hp : Z.of_nat (length p) <= 21845)
  (Hi : p !! i = Some ins)
  (Hm : upper (fst ins) = spec_name m)
  (Ho : spec_has_operand m = true) :
  let s1 := set_PC (3 * Z.of_nat i) (snd (load_program p s)) in
  step s1
  = (Ret tt,
     spec_act m (arg_of ins mod 65536) (set_PC (3 * Z.of_nat i + 3) s1)).
Proof.
  intros s1.
  assert (Hlt : (i < length p)%nat) by (apply lookup_lt_is_Some; eauto).
  assert (W1 : wf s1).
  { apply wf_set_PC; [apply wf_load_program, W|lia]. }
  assert (Hc : OPCODES_INV !! upper (fst ins) = Some (spec_opcode m))
    by (rewrite Hm; apply OPCODES_INV_spec).
  destruct (loaded_instr p s i ins _ Hk (wf_len s W) Hp Hi Hc)
    as (H0 & H1 & H2).
  assert (C0 : cell s1 (PC s1) = spec_opcode m) by exact H0.
  assert (C1 : cell s1 (3 * Z.of_nat i + 1) = arg_of ins mod 256)
    by exact H1.
  assert (C2 : cell s1 (3 * Z.of_nat i + 2) = (arg_of ins / 256) mod 256)
    by exact H2.
  rewrite (step_known s1 m W1 C0). unfold after_fetch. rewrite Ho.
  change (PC s1) with (3 * Z.of_nat i). unfold operand_at.
  replace ((3 * Z.of_nat i + 1) mod 65536) with (3 * Z.of_nat i + 1)
    by (rewrite Z.mod_small; lia).
  replace ((3 * Z.of_nat i + 1 + 1) mod 65536) with (3 * Z.of_nat i + 2)
    by (rewrite Z.mod_small; lia).
  replace ((3 * Z.of_nat i + 1 + 2) mod 65536) with (3 * Z.of_nat i + 3)
    by (rewrite Z.mod_small; lia).
  now rewrite C1, C2, le16_split.
Qed.

Lemma step_loaded_operand_instr_witness :
  let p := [("lda", Some 300); ("JMP", Some 0)] in
  let s1 := set_PC 0 (snd (load_program p init)) in
  Forall known p /\ wf init /\ Z.of_nat (length p) <= 21845 /\
  p !! 0%nat = Some ("lda", Some 300) /\
  upper "lda" = spec_name LDA /\ spec_has_operand LDA = true /\
  A (snd (step s1)) = 44 /\ PC (snd (step s1)) = 3.
Proof.
  intros p s1.
  assert (Hk : Forall known p).
  { repeat apply Forall_cons_2; try apply Forall_nil_2;
      unfold known; vm_compute; eauto. }
  assert (Hp : Z.of_nat (length p) <= 21845) by (cbn; lia).
  assert (Hi : p !! 0%nat = Some ("lda", Some 300)) by reflexivity.
  split; [exact Hk|]. split; [exact init_wf|]. split; [exact Hp|].
  split; [exact Hi|]. split; [reflexivity|]. split; [reflexivity|].
  assert (E := step_loaded_operand_instr p init 0 _ LDA Hk init_wf Hp Hi
                 eq_refl eq_refl).
  cbn zeta in E. fold p in E.
  change (set_PC (3 * Z.of_nat 0) (snd (load_program p init))) with s1 in E.
  rewrite E. split; reflexivity.
Defined.

(** X15.  The loader and the engine disagree on ADD, SUB and OUT: the
    loader gives them three cells, the engine moves [PC] one cell on.  So
    after such an instruction of a loaded program [PC] is at its operand's
    low byte, and when that byte is 0, as for an operand of 0, the next
    step raises the decode failure for opcode 0 at that address. *)
Theorem step_loaded_no_operand_instr
  (p : list instr) (s : cpu) (i : nat) (ins : instr) (m : mnemonic)
  (Hk : Forall known p)
  (W : wf s)
  (Hp : Z.of_nat (length p) <= 21845)
  (Hi : p !! i = Some ins)
  (Hm : upper (fst ins) = spec_name m)
  (Ho : m ∈ [ADD; SUB; OUT])
  (Hz : arg_of ins mod 256 = 0) :
  let s1 := set_PC (3 * Z.of_nat i) (snd (load_program p s)) in
  fst (step s1) = Ret tt /\
  PC (snd (step s1)) = 3 * Z.of_nat i + 1 /\
  fst (step (snd (step s1)))
  = Raise (RuntimeError (unknown_opcode_msg 0 (3 * Z.of_nat i + 1))).
Proof.
  intros s1.
  assert (Hlt : (i < length p)%nat) by (apply lookup_lt_is_Some; eauto).
  assert (W1 : wf s1).
  { apply wf_set_PC; [apply wf_load_program, W|lia]. }
  assert (Hc : OPCODES_INV !! upper (fst ins) = Some (spec_opcode m))
    by (rewrite Hm; apply OPCODES_INV_spec).
  destruct (loaded_instr p s i ins _ Hk (wf_len s W) Hp Hi Hc)
    as (H0 & H1 & _).
  assert (C0 : cell s1 (PC s1) = spec_opcode m) by exact H0.
  assert (C1 : cell s1 (3 * Z.of_nat i + 1) = 0)
    by (rewrite <- Hz; exact H1).
  assert (W2 := step_wf s1 W1).
  rewrite (step_known s1 m W1 C0) in *. cbn [fst snd] in *.
  set (s2 := spec_act m _ (after_fetch m s1)) in *.
  assert (P2 : PC s2 = 3 * Z.of_nat i + 1).
  { unfold s2, after_fetch. change (PC s1) with (3 * Z.of_nat i).
    rewrite Z.mod_small by lia.
    destruct m; elem_of_cases Ho; reflexivity. }
  assert (C2 : cell s2 (PC s2) = 0).
  { rewrite P2, <- C1. unfold s2. destruct m; elem_of_cases Ho; reflexivity. }
  split; [reflexivity|]. split; [exact P2|].
  rewrite step_unknown; [|exact W2|].
  - cbn [fst]. rewrite C2, P2. rewrite Z.mod_small by lia.
    do 3 f_equal. lia.
  - intros m'. rewrite C2. destruct m'; discriminate.
Qed.

Lemma step_loaded_no_operand_instr_witness :
  let s1 := set_PC (3 * Z.of_nat 2) (snd (load_program prog init)) in
  Forall known prog /\ wf init /\ Z.of_nat (length prog) <= 21845 /\
  prog !! 2%nat = Some ("ADD", Some 0) /\
  upper "ADD" = spec_name ADD /\ ADD ∈ [ADD; SUB; OUT] /\ 0 mod 256 = 0 /\
  fst (step (snd (step s1)))
  = Raise (RuntimeError "Unknown opcode 0 at PC 0007").
Proof.
  intros s1.
  assert (Hk : Forall known prog).
  { repeat apply Forall_cons_2; try apply Forall_nil_2;
      unfold known; vm_compute; eauto. }
  assert (Hp : Z.of_nat (length prog) <= 21845) by (cbn; lia).
  assert (Hi : prog !! 2%nat = Some ("ADD", Some 0)) by reflexivity.
  assert (Ho : ADD ∈ [ADD; SUB; OUT]) by elem_of_list.
  split; [exact Hk|]. split; [exact init_wf|]. split; [exact Hp|].
  split; [exact Hi|]. split; [reflexivity|]. split; [exact Ho|].
  split; [reflexivity|].
  destruct (step_loaded_no_operand_instr prog init 2 _ ADD Hk init_wf Hp Hi
              eq_refl Ho eq_refl) as (_ & _ & H).
  exact H.
Defined.

(** ** Instructions in sequence *)

(** X16.  A store is read back: when a step executes STA with operand [a]
    and the next step executes LDA_MEM with the same operand, [A] ends as it
    was before the store, cell [a] holds it, and [Z] tells whether it is
    zero. *)
Theorem sta_lda_mem_round_trip (s : cpu) (W : wf s)
  (Hsta : cell s (PC s) = spec_opcode STA)
  (Hlda : cell (snd (step s)) (PC (snd (step s))) = spec_opcode LDA_MEM)
  (Hadr : operand_at (snd (step s)) ((PC (snd (step s)) + 1) mod 65536)
          = operand_at s ((PC s + 1) mod 65536)) :
  let a := operand_at s ((PC s + 1) mod 65536) in
  let s2 := snd (step (snd (step s))) in
  fst (step (snd (step s))) = Ret tt /\
  A s2 = A s /\ cell s2 a = A s /\ ZF s2 = (A s =? 0).
Proof.
  intros a s2.
  assert (W1 := step_wf s W).
  assert (Ha : 0 <= a < 65536).
  { apply operand_at_range; [exact W|]. apply Z.mod_pos_bound. lia. }
  assert (HA := wf_A s W). assert (Hl := wf_len s W). unfold MEM_SIZE in Hl.
  assert (Hcell : cell (snd (step s)) a = A s).
  { rewrite (step_known s STA W Hsta). cbn [snd spec_act]. unfold cell.
    cbn [mem set_mem after_fetch spec_has_operand set_PC A].
    fold a. apply list_lookup_total_correct.
    rewrite list_lookup_insert_eq by lia.
    now rewrite Z.mod_small by exact HA. }
  assert (HA1 : A (snd (step s)) = A s).
  { rewrite (step_known s STA W Hsta). reflexivity. }
  unfold s2. rewrite (step_known _ LDA_MEM W1 Hlda). cbn [fst snd spec_act].
  rewrite Hadr. fold a.
  change (cell (after_fetch LDA_MEM (snd (step s))) a)
    with (cell (snd (step s)) a).
  rewrite Hcell, (Z.mod_small (A s)) by exact HA.
  split; [reflexivity|]. split; [reflexivity|]. split; [|reflexivity].
  exact Hcell.
Qed.

Lemma sta_lda_mem_round_trip_witness :
  let s0 := snd (load_program
                   [("LDA", Some 42); ("STA", Some 1000);
                    ("LDA_MEM", Some 1000)] init) in
  let s := snd (step s0) in
  wf s /\ cell s (PC s) = spec_opcode STA /\
  cell (snd (step s)) (PC (snd (step s))) = spec_opcode LDA_MEM /\
  A (snd (step (snd (step s)))) = 42 /\
  cell (snd (step (snd (step s)))) 1000 = 42.
Proof.
  intros s0 s.
  assert (W : wf s) by apply step_wf, wf_load_program, init_wf.
  assert (Hsta : cell s (PC s) = spec_opcode STA) by (vm_compute; reflexivity).
  assert (Hlda : cell (snd (step s)) (PC (snd (step s))) = spec_opcode LDA_MEM)
    by (vm_compute; reflexivity).
  assert (Hadr : operand_at (snd (step s)) ((PC (snd (step s)) + 1) mod 65536)
                 = operand_at s ((PC s + 1) mod 65536))
    by (vm_compute; reflexivity).
  assert (HA : A s = 42) by (vm_compute; reflexivity).
  assert (Ho : operand_at s ((PC s + 1) mod 65536) = 1000)
    by (vm_compute; reflexivity).
  split; [exact W|]. split; [exact Hsta|]. split; [exact Hlda|].
  destruct (sta_lda_mem_round_trip s W Hsta Hlda Hadr) as (_ & H1 & H2 & _).
  rewrite Ho in H2. rewrite HA in H1, H2. split; [exact H1|exact H2].
Defined.

(** X17.  SUB undoes ADD: when a step executes ADD and the next cell holds
    SUB, after the two steps [A] is what it was, [B] is unchanged and [Z]
    tells whether [A] is zero. *)
Theorem add_then_sub_restores_A (s : cpu) (W : wf s)
  (Hadd : cell s (PC s) = spec_opcode ADD)
  (Hsub : cell s ((PC s + 1) mod 65536) = spec_opcode SUB) :
  let s2 := snd (step (snd (step s))) in
  fst (step s) = Ret tt /\ fst (step (snd (step s))) = Ret tt /\
  A s2 = A s /\ B s2 = B s /\ ZF s2 = (A s =? 0) /\
  PC s2 = ((PC s + 1) mod 65536 + 1) mod 65536.
Proof.
  intros s2. assert (W1 := step_wf s W).
  assert (HA := wf_A s W).
  assert (E1 := step_known s ADD W Hadd).
  assert (Hsub1 : cell (snd (step s)) (PC (snd (step s))) = spec_opcode SUB).
  { rewrite E1. exact Hsub. }
  assert (E2 := step_known _ SUB W1 Hsub1).
  unfold s2. rewrite E2. cbn [fst snd]. rewrite E1. cbn [fst snd].
  cbn [spec_act after_fetch spec_has_operand A B PC ZF
       set_A set_ZF set_PC].
  assert (Hv : ((A s + B s) mod 256 - B s) mod 256 = A s).
  { rewrite Zminus_mod_idemp_l.
    replace (A s + B s - B s) with (A s) by lia.
    now apply Z.mod_small. }
  rewrite Hv. repeat split.
Qed.

Lemma add_then_sub_restores_A_witness :
  let s := snd (load_program [("ADD", Some 6)] init) in
  wf s /\ cell s (PC s) = spec_opcode ADD /\
  cell s ((PC s + 1) mod 65536) = spec_opcode SUB /\
  A (snd (step (snd (step s)))) = A s.
Proof.
  intros s.
  assert (W : wf s) by apply wf_load_program, init_wf.
  assert (Hadd : cell s (PC s) = spec_opcode ADD) by (vm_compute; reflexivity).
  assert (Hsub : cell s ((PC s + 1) mod 65536) = spec_opcode SUB)
    by (vm_compute; reflexivity).
  split; [exact W|]. split; [exact Hadd|]. split; [exact Hsub|].
  destruct (add_then_sub_restores_A s W Hadd Hsub) as (_ & _ & H & _).
  exact H.
Defined.

(** X18.  A conditional jump follows the load before it: when a step
    executes LDA and the next instruction is JZ, the jump is taken exactly
    when the value loaded is zero; otherwise execution goes on behind the
    JZ. *)
Theorem lda_then_jz (s : cpu) (W : wf s)
  (Hlda : cell s (PC s) = spec_opcode LDA)
  (Hjz : cell s (((PC s + 1) mod 65536 + 2) mod 65536) = spec_opcode JZ) :
  let pc1 := (PC s + 1) mod 65536 in
  let pc3 := (pc1 + 2) mod 65536 in
  let pc4 := (pc3 + 1) mod 65536 in
  let s2 := snd (step (snd (step s))) in
  A s2 = operand_at s pc1 mod 256 /\
  PC s2 = if A s2 =? 0 then operand_at s pc4 mod 65536
          else (pc4 + 2) mod 65536.
Proof.
  intros pc1 pc3 pc4 s2. assert (W1 := step_wf s W).
  assert (E1 := step_known s LDA W Hlda).
  assert (Hjz1 : cell (snd (step s)) (PC (snd (step s))) = spec_opcode JZ).
  { rewrite E1. exact Hjz. }
  assert (E2 := step_known _ JZ W1 Hjz1).
  unfold s2. rewrite E2. cbn [snd]. rewrite E1. cbn [snd].
  cbn [spec_act after_fetch spec_has_operand A B PC ZF
       set_A set_ZF set_PC].
  fold pc1. fold pc3. fold pc4.
  change (operand_at (set_ZF _ (set_A _ (set_PC pc3 s))) pc4)
    with (operand_at s pc4).
  destruct (operand_at s pc1 mod 256 =? 0) eqn:E; cbn; rewrite E; auto.
Qed.

Lemma lda_then_jz_witness :
  let s := snd (load_program [("LDA", Some 0); ("JZ", Some 300)] init) in
  wf s /\ cell s (PC s) = spec_opcode LDA /\
  cell s (((PC s + 1) mod 65536 + 2) mod 65536) = spec_opcode JZ /\
  PC (snd (step (snd (step s)))) = 300.
Proof.
  intros s.
  assert (W : wf s) by apply wf_load_program, init_wf.
  assert (Hlda : cell s (PC s) = spec_opcode LDA) by (vm_compute; reflexivity).
  assert (Hjz : cell s (((PC s + 1) mod 65536 + 2) mod 65536) = spec_opcode JZ)
    by (vm_compute; reflexivity).
  split; [exact W|]. split; [exact Hlda|]. split; [exact Hjz|].
  destruct (lda_then_jz s W Hlda Hjz) as [HA HP].
  rewrite HP, HA. vm_compute. reflexivity.
Defined.

Lemma run_loop_budget_monotone fuel : forall max_steps steps s k s',
  run_loop fuel max_steps steps s = (Ret (Some k), s') ->
  k < max_steps ->
  forall max_steps' fuel',
    max_steps <= max_steps' -> max_steps' - steps <= Z.of_nat fuel' ->
    run_loop fuel' max_steps' steps s = (Ret (Some k), s').
Proof.
  induction fuel as [|fuel IH];
    intros max_steps steps s k s' H Hk max_steps' fuel' Hle Hf.
  - cbn [run_loop] in H. rewrite bind_gets in H.
    destruct (running s && (steps <? max_steps)) eqn:E; [discriminate H|].
    injection H as <- <-.
    destruct (Z.ltb_spec steps max_steps); [|lia].
    rewrite andb_true_r in E. apply run_loop_stop. now rewrite E.
  - cbn [run_loop] in H. rewrite bind_gets in H.
    destruct (running s && (steps <? max_steps)) eqn:E.
    + apply andb_true_iff in E as [Hr Hs]. apply Z.ltb_lt in Hs.
      destruct fuel' as [|fuel']; [lia|].
      rewrite run_loop_go by (auto; lia).
      unfold bind in *. destruct (step s) as [[[]|e] s1]; [|discriminate H].
      eapply IH; eauto. lia.
    + injection H as <- <-.
      destruct (Z.ltb_spec steps max_steps); [|lia].
      rewrite andb_true_r in E. apply run_loop_stop. now rewrite E.
Qed.

(** X19.  A larger budget does not change a run that returned: if [run]
    returns with some budget, it returns with every larger budget, in the
    same final state. *)
Theorem run_budget_monotone (max_steps max_steps' : Z) (s s' : cpu)
  (H : run max_steps s = (Ret (Some tt), s'))
  (Hle : max_steps <= max_steps') :
  run max_steps' s = (Ret (Some tt), s').
Proof.
  unfold run, bind in *.
  destruct (run_loop (Z.to_nat max_steps) max_steps 0 s)
    as [[[k|]|e] s1] eqn:E; try discriminate H.
  destruct (Z.geb_spec k max_steps) as [Hge|Hlt]; [discriminate H|].
  injection H as <-.
  rewrite (run_loop_budget_monotone _ _ _ _ _ _ E Hlt max_steps'
             (Z.to_nat max_steps')) by lia.
  destruct (Z.geb_spec k max_steps'); [lia|reflexivity].
Qed.

Lemma run_budget_monotone_witness :
  let s := snd (load_program [("HLT", Some 0)] init) in
  run 2 s = (Ret (Some tt), snd (run 2 s)) /\ 2 <= DEFAULT_MAX_STEPS /\
  run DEFAULT_MAX_STEPS s = (Ret (Some tt), snd (run 2 s)).
Proof.
  intros s.
  assert (Hf : fst (run 2 s) = Ret (Some tt)) by (vm_compute; reflexivity).
  assert (H : run 2 s = (Ret (Some tt), snd (run 2 s))).
  { rewrite <- Hf. now destruct (run 2 s). }
  assert (Hle : 2 <= DEFAULT_MAX_STEPS) by (unfold DEFAULT_MAX_STEPS; lia).
  split; [exact H|]. split; [exact Hle|].
  exact (run_budget_monotone 2 DEFAULT_MAX_STEPS s _ H Hle).
Defined.
